(** * Eco-sterile pH regulation sketch (src/Arduino.cpp)

    A shallow embedding of the Arduino sketch: the moving-average filter
    [applyMA], the three-point least-squares calibration
    [computeCalibration], and the dosing decision made by [loop]
    (hysteresis flags, minimum gap between bursts, conflict arbitration,
    one-shot burst).

    The sketch computes on C [float]s.  The embedding is written once over
    an interface [FloatOps] that lists exactly the operations the sketch
    uses; it is instantiated

    - by exact rationals ([Exact.Q_ops]), the reading in which the
      specification's "real" quantities live, and
    - by IEEE-754 binary32 with round-to-nearest-even
      ([Binary32.binary32_ops], built on the standard library's
      [SpecFloat]), the format of [float] (and, on the 8-bit AVR boards
      whose 10-bit [analogRead] and 5 V reference the sketch assumes, of
      [double] as well).

    Every statement about the dosing logic is proved for an arbitrary
    carrier, hence for both.  What the calibration and the filter compute
    is stated for an arbitrary carrier as well; what that value is as a
    real number needs the field laws and is proved for the exact instance,
    with the effect of rounding stated separately for binary32. *)

From Stdlib Require Import ZArith QArith Qabs Qminmax String SpecFloat Lia Lqa ZifyNat.
From stdpp Require Import list.

Local Open Scope Z_scope.

(** ** The arithmetic the sketch relies on *)

(** The operations of C [float] used by the sketch.  [x > y] is written
    [flt y x] and [x >= y] is written [fle y x]. *)
Class FloatOps (F : Type) : Type := {
  fadd : F -> F -> F;
  fsub : F -> F -> F;
  fmul : F -> F -> F;
  fdiv : F -> F -> F;
  flt : F -> F -> bool;
  fle : F -> F -> bool;
  fabs : F -> F;
  of_int : Z -> F;     (* implicit conversion [int] -> [float] *)
  lit : Q -> F         (* a decimal literal of the source text *)
}.

(** Exact rational arithmetic. *)
Module Exact.

#[export] Instance Q_ops : FloatOps Q := {|
  fadd := Qplus;
  fsub := Qminus;
  fmul := Qmult;
  fdiv := Qdiv;
  flt := fun x y => negb (Qle_bool y x);
  fle := Qle_bool;
  fabs := Qabs;
  of_int := inject_Z;
  lit := Qred
|}.

End Exact.

(** IEEE-754 binary32, round to nearest, ties to even. *)
Module Binary32.

Definition prec : Z := 24.
Definition emax : Z := 128.

Definition of_Z (z : Z) : spec_float := binary_normalize prec emax z 0 false.

(** A decimal literal [n/d] with [n] and [d] below 2^24 is the correctly
    rounded quotient of two exactly represented integers. *)
Definition of_decimal (q : Q) : spec_float :=
  SFdiv prec emax (of_Z (Qnum q)) (of_Z (Zpos (Qden q))).

#[export] Instance binary32_ops : FloatOps spec_float := {|
  fadd := SFadd prec emax;
  fsub := SFsub prec emax;
  fmul := SFmul prec emax;
  fdiv := SFdiv prec emax;
  flt := SFltb;
  fle := SFleb;
  fabs := SFabs;
  of_int := of_Z;
  lit := of_decimal
|}.

End Binary32.

(** ** Machine integers *)

(** [unsigned long] is 32 bits wide on the board; subtraction wraps. *)
Definition ulong_modulus : Z := 2 ^ 32.
Definition ulong_sub (a b : Z) : Z := (a - b) mod ulong_modulus.

(** ** Effects and telemetry *)

(** What a control cycle does to the outside world, in program order. *)
Inductive Effect : Type :=
  | DigitalWrite (pin : Z) (level : bool)
  | Delay (ms : Z).

Section Sketch.

Context {F : Type} {ops : FloatOps F}.

(** *** Constants (lines 9-48) *)

Definition basic_pump_in1 : Z := 6.
Definition basic_pump_in2 : Z := 7.
Definition acidic_pump_in3 : Z := 8.
Definition acidic_pump_in4 : Z := 9.

Definition cal_pH1 : F := lit 4.0.
Definition cal_V1 : F := lit 3.60.
Definition cal_pH2 : F := lit 7.0.
Definition cal_V2 : F := fdiv (fadd (lit 2.957) (lit 3.055)) (lit 2.0).
Definition cal_pH3 : F := lit 10.0.
Definition cal_V3 : F := lit 1.466.

Definition MA_SIZE : nat := 10.

Definition pumpBurstMs : Z := 1200.
Definition minGapBetweenBursts : Z := 10 * 1000.

Definition pH_low_threshold : F := lit 6.45.
Definition pH_low_exit : F := lit 6.7.
Definition pH_high_threshold : F := lit 7.55.
Definition pH_high_exit : F := lit 7.3.

(** *** Program state

    The globals of the sketch together with the two function-local
    [static] flags of [loop], which persist between calls.  [maIndex] and
    [maCount] are [int]s that stay within [0, MA_SIZE], so no wrap-around
    arises and they are kept as [nat]. *)
Record State : Type := mkState {
  maBuffer : list F;
  maIndex : nat;
  maCount : nat;
  lastPumpMillis : Z;
  pumpRunning : bool;
  slope : F;
  intercept : F;
  base_active : bool;
  acid_active : bool
}.

(** One JSON line of the dashboard output (lines 205-213). *)
Record Telemetry : Type := mkTelemetry {
  t_pH : F;
  t_voltage : F;
  pumpType : string;
  pumpAction : string
}.

(** The result of one call of [loop]: the new state, the pump actuation
    performed before the JSON line is printed, and that line.  The
    closing [delay(800)] is the same in every cycle and is left out. *)
Record Cycle : Type := mkCycle {
  next : State;
  actuation : list Effect;
  telemetry : Telemetry
}.

(** *** readVoltage (lines 55-59); [raw] is the value of [analogRead]. *)
Definition readVoltage (raw : Z) : F :=
  fmul (of_int raw) (fdiv (lit 5.0) (lit 1023.0)).

(** *** applyMA (lines 62-70)

    The slot write is stdpp's list insert; the summation loop adds the
    first [maCount] slots left to right, starting from [0.0f].  [maIndex]
    is below [MA_SIZE] and the buffer has [MA_SIZE] slots in every state
    the sketch reaches ([filter_wf] below), so the write and the reads are
    in range; out of range the C code would be undefined, whereas the
    insert leaves the list unchanged. *)
Definition applyMA (v : F) (st : State) : State * F :=
  let buf := <[maIndex st := v]> (maBuffer st) in
  let idx := ((maIndex st + 1) mod MA_SIZE)%nat in
  let cnt := if (maCount st <? MA_SIZE)%nat then S (maCount st) else maCount st in
  let sum := fold_left fadd (take cnt buf) (lit 0.0) in
  (mkState buf idx cnt (lastPumpMillis st) (pumpRunning st)
           (slope st) (intercept st) (base_active st) (acid_active st),
   fdiv sum (of_int (Z.of_nat cnt))).

(** The filter state after pushing the samples [vs], oldest first. *)
Definition feed (vs : list F) (st : State) : State :=
  fold_left (fun s v => fst (applyMA v s)) vs st.

(** The shape of the filter variables that [applyMA] maintains. *)
Definition filter_wf (st : State) : Prop :=
  length (maBuffer st) = MA_SIZE /\
  (maIndex st < MA_SIZE)%nat /\
  (maCount st <= MA_SIZE)%nat.

(** The last [m] slots written hold [v]: the induction invariant for a
    run of equal samples. *)
Definition recent (v : F) (m : nat) (st : State) : Prop :=
  filter_wf st /\
  (m `min` MA_SIZE <= maCount st)%nat /\
  forall j, (j < m)%nat -> (j < MA_SIZE)%nat ->
    maBuffer st !! ((maIndex st + MA_SIZE - 1 - j) mod MA_SIZE)%nat = Some v.

(** *** computeCalibration (lines 73-96)

    [fit] is the body of [computeCalibration] with the two local arrays
    [x] and [y] as parameters; [computeCalibration] applies it to the
    calibration constants. *)
Definition arr3 (a : F * F * F) : list F :=
  let '(a0, a1, a2) := a in [a0; a1; a2].

Definition fit (x y : F * F * F) : F * F :=
  let N := 3 in
  let '(sumx, sumy, sumxy, sumx2) :=
    fold_left
      (fun acc xy =>
         let '(sx, sy, sxy, sx2) := acc in
         let '(xi, yi) := xy in
         (fadd sx xi, fadd sy yi, fadd sxy (fmul xi yi), fadd sx2 (fmul xi xi)))
      (zip (arr3 x) (arr3 y))
      (lit 0.0, lit 0.0, lit 0.0, lit 0.0) in
  let denom := fsub (fmul (of_int N) sumx2) (fmul sumx sumx) in
  if flt (fabs denom) (lit 1e-6) then
    (lit 0.0, lit 7.0)
  else
    let slope := fdiv (fsub (fmul (of_int N) sumxy) (fmul sumx sumy)) denom in
    let intercept := fdiv (fsub sumy (fmul slope sumx)) (of_int N) in
    (slope, intercept).

Definition computeCalibration : F * F :=
  fit (cal_V1, cal_V2, cal_V3) (cal_pH1, cal_pH2, cal_pH3).

(** *** Pump helpers (lines 220-239) *)
Definition runBasicPump : list Effect :=
  [DigitalWrite basic_pump_in1 true; DigitalWrite basic_pump_in2 false;
   DigitalWrite acidic_pump_in3 false; DigitalWrite acidic_pump_in4 false].

Definition runAcidicPump : list Effect :=
  [DigitalWrite acidic_pump_in3 true; DigitalWrite acidic_pump_in4 false;
   DigitalWrite basic_pump_in1 false; DigitalWrite basic_pump_in2 false].

Definition stopPumps : list Effect :=
  [DigitalWrite basic_pump_in1 false; DigitalWrite basic_pump_in2 false;
   DigitalWrite acidic_pump_in3 false; DigitalWrite acidic_pump_in4 false].

(** *** setup (lines 98-124)

    The state in which the first call of [loop] starts.  The serial
    banner is not modelled. *)
Definition setup : State :=
  let '(s, i) := computeCalibration in
  mkState (replicate MA_SIZE (lit 0.0)) 0 0 0 false s i false false.

(** *** The blocks of loop (lines 126-217) *)

(** Lines 131-136: linear calibration, then the two clamping tests. *)
Definition compute_pH (s i v : F) : F :=
  let pH := fadd (fmul s v) i in
  let pH := if flt pH (of_int 0) then of_int 0 else pH in
  if flt (of_int 14) pH then of_int 14 else pH.

(** Line 145. *)
Definition allowedToRun (now last : Z) : bool :=
  minGapBetweenBursts <? ulong_sub now last.

(** Lines 152-160. *)
Definition base_transition (pH : F) (allowed : bool) (base : bool) : bool :=
  if base then
    (if fle pH_low_exit pH then false else base)
  else
    (if fle pH pH_low_threshold && allowed then true else base).

(** Lines 162-170. *)
Definition acid_transition (pH : F) (allowed : bool) (acid : bool) : bool :=
  if acid then
    (if fle pH pH_high_exit then false else acid)
  else
    (if fle pH_high_threshold pH && allowed then true else acid).

(** Lines 172-179; the result is the pair (base_active, acid_active). *)
Definition resolve_conflict (pH : F) (base acid : bool) : bool * bool :=
  if base && acid then
    let devBase := fabs (fsub pH (lit 6.5)) in
    let devAcid := fabs (fsub pH (lit 7.5)) in
    if fle devAcid devBase then (base, false) else (false, acid)
  else (base, acid).

(** The two flags as they stand after line 179, i.e. after both
    transitions and the arbitration. *)
Definition arbitrated (pH : F) (now : Z) (st : State) : bool * bool :=
  let allowed := allowedToRun now (lastPumpMillis st) in
  resolve_conflict pH
    (base_transition pH allowed (base_active st))
    (acid_transition pH allowed (acid_active st)).

(** Lines 138-202: the dosing decision for a given pH reading [pH],
    filtered voltage [v] and clock value [now]. *)
Definition dose (pH v : F) (now : Z) (st : State) : Cycle :=
  let '(base, acid) := arbitrated pH now st in
  if base then
    mkCycle
      (mkState (maBuffer st) (maIndex st) (maCount st) now false
               (slope st) (intercept st) false acid)
      (runBasicPump ++ [Delay pumpBurstMs] ++ stopPumps)
      (mkTelemetry pH v "basic" "on")
  else if acid then
    mkCycle
      (mkState (maBuffer st) (maIndex st) (maCount st) now false
               (slope st) (intercept st) base false)
      (runAcidicPump ++ [Delay pumpBurstMs] ++ stopPumps)
      (mkTelemetry pH v "acidic" "on")
  else
    mkCycle
      (mkState (maBuffer st) (maIndex st) (maCount st) (lastPumpMillis st)
               (pumpRunning st) (slope st) (intercept st) base acid)
      []
      (mkTelemetry pH v "none" "off").

(** The filtered voltage and the pH of a cycle (lines 128-136). *)
Definition sense (raw : Z) (st : State) : State * F * F :=
  let rawV := readVoltage raw in
  let '(st1, v) := applyMA rawV st in
  (st1, v, compute_pH (slope st1) (intercept st1) v).

Definition sensed_state (raw : Z) (st : State) : State := fst (fst (sense raw st)).
Definition filtered_voltage (raw : Z) (st : State) : F := snd (fst (sense raw st)).
Definition measured_pH (raw : Z) (st : State) : F := snd (sense raw st).

(** One call of [loop]; [raw] is what [analogRead] returns and [now] what
    [millis] returns in this call. *)
Definition loop (raw now : Z) (st : State) : Cycle :=
  let '(st1, v, pH) := sense raw st in
  dose pH v now st1.

(** The sketch run over a sequence of (raw, now) readings, starting in
    [st]: the state after the last cycle. *)
Definition run (inputs : list (Z * Z)) (st : State) : State :=
  fold_left (fun s i => next (loop (fst i) (snd i) s)) inputs st.

(** The cycles performed on those readings, first cycle first. *)
Fixpoint cycles (inputs : list (Z * Z)) (st : State) : list Cycle :=
  match inputs with
  | [] => []
  | i :: rest =>
      let c := loop (fst i) (snd i) st in
      c :: cycles rest (next c)
  end.

(** The states the sketch can be in at the start of a cycle. *)
Inductive reachable : State -> Prop :=
  | reachable_setup : reachable setup
  | reachable_loop raw now st :
      reachable st -> reachable (next (loop raw now st)).

(** *** Branch conditions of loop

    The conditions under which the assignments of lines 154, 164 and
    177-178 are executed, for the state [st] in which line 152 is
    reached. *)
Definition base_exit_taken (pH : F) (st : State) : bool :=
  base_active st && fle pH_low_exit pH.

Definition acid_exit_taken (pH : F) (st : State) : bool :=
  acid_active st && fle pH pH_high_exit.

Definition conflict_taken (pH : F) (now : Z) (st : State) : bool :=
  let allowed := allowedToRun now (lastPumpMillis st) in
  base_transition pH allowed (base_active st)
  && acid_transition pH allowed (acid_active st).

(** The two entry thresholds cannot be met by one reading.  This is a
    property of the order of the carrier; both instances have it. *)
Definition thresholds_disjoint : Prop :=
  forall pH : F,
    fle pH pH_low_threshold = true -> fle pH_high_threshold pH = true -> False.

End Sketch.

(** ** Reference notions of the specification, over exact rationals *)

(** Arithmetic mean of a list of samples. *)
Definition Qsum (l : list Q) : Q := foldr Qplus 0%Q l.
Definition Qmean (l : list Q) : Q := (Qsum l / inject_Z (Z.of_nat (length l)))%Q.



(** ** The parts of computeCalibration *)

Section RegressionParts.

Context {F : Type} {ops : FloatOps F}.




End RegressionParts.

(** [out] is within [k] units in the last place of [v], in binary32. *)
Definition within_ulps (k : Z) (v out : spec_float) : bool :=
  SFleb (SFabs (SFsub Binary32.prec Binary32.emax out v))
        (SFmul Binary32.prec Binary32.emax (Binary32.of_Z k)
               (SFulp Binary32.prec Binary32.emax v)).

(** ** Digital outputs

    The levels driven on the output pins, as a total map from pin number
    to level.  [pinMode] only selects the direction of a pin and the
    serial port carries no pin level, so the effects of a run on the pins
    are its [digitalWrite]s, with the [delay]s between them. *)
Definition Pins : Type := Z -> bool.

Definition digitalWrite (pin : Z) (level : bool) (p : Pins) : Pins :=
  fun q => if Z.eqb q pin then level else p q.

Definition perform (e : Effect) (p : Pins) : Pins :=
  match e with
  | DigitalWrite pin level => digitalWrite pin level p
  | Delay _ => p
  end.

Definition pins_after (es : list Effect) (p : Pins) : Pins :=
  fold_left (fun q e => perform e q) es p.

(** The pin levels after each effect of [es], in order. *)
Fixpoint pin_history (es : list Effect) (p : Pins) : list Pins :=
  match es with
  | [] => []
  | e :: rest => perform e p :: pin_history rest (perform e p)
  end.


(** What [setup] does to the pins (line 104) and its closing delay
    (line 123). *)
Definition setup_actuation : list Effect := stopPumps ++ [Delay 500].

Definition pumps_off (p : Pins) : Prop :=
  p basic_pump_in1 = false /\ p basic_pump_in2 = false /\
  p acidic_pump_in3 = false /\ p acidic_pump_in4 = false.

(** At most one of the four pump pins is HIGH, and it is a forward pin. *)
Definition one_pump_at_most (p : Pins) : Prop :=
  p basic_pump_in2 = false /\ p acidic_pump_in4 = false /\
  p basic_pump_in1 && p acidic_pump_in3 = false.

(** The three filter variables of a state. *)
Definition filter_of {F : Type} (st : @State F) : list F * nat * nat :=
  (maBuffer st, maIndex st, maCount st).

(** ** Further reference notions *)

(** The last [MA_SIZE] elements of a list, all of it when it is shorter. *)
Definition last_samples {A : Type} (vs : list A) : list A :=
  drop (length vs - MA_SIZE) vs.


(** * Properties *)

(** ** Machine integers *)

Lemma ulong_sub_range (a b : Z) : 0 <= ulong_sub a b < ulong_modulus.
Proof. unfold ulong_sub, ulong_modulus. apply Z.mod_pos_bound. lia. Qed.

(** Without wrap-around the subtraction is the ordinary one. *)
Lemma ulong_sub_nowrap (a b : Z) :
  0 <= b <= a -> a < ulong_modulus -> ulong_sub a b = a - b.
Proof. intros Hb Ha. unfold ulong_sub. apply Z.mod_small. lia. Qed.

Lemma allowedToRun_spec (now last : Z) :
  allowedToRun now last = true <-> ulong_sub now last > minGapBetweenBursts.
Proof. unfold allowedToRun. rewrite Z.ltb_lt. lia. Qed.

Lemma allowedToRun_false (now last : Z) :
  ~ (ulong_sub now last > minGapBetweenBursts) -> allowedToRun now last = false.
Proof.
  intros Hn. destruct (allowedToRun now last) eqn:E; [|reflexivity].
  apply allowedToRun_spec in E. contradiction.
Qed.

(** ** The dosing logic, for any carrier *)

Section DosingLogic.

Context {F : Type} {ops : FloatOps F}.

Implicit Types (pH v : F) (st : @State F) (now raw : Z).

(** *** The filter and the sensing step leave the dosing state alone *)

Lemma sense_frame raw st :
  let st1 := fst (fst (sense raw st)) in
  lastPumpMillis st1 = lastPumpMillis st /\
  slope st1 = slope st /\ intercept st1 = intercept st /\
  base_active st1 = base_active st /\ acid_active st1 = acid_active st.
Proof. cbn. repeat split. Qed.

Lemma sensed_state_frame raw st :
  lastPumpMillis (sensed_state raw st) = lastPumpMillis st /\
  slope (sensed_state raw st) = slope st /\
  intercept (sensed_state raw st) = intercept st /\
  base_active (sensed_state raw st) = base_active st /\
  acid_active (sensed_state raw st) = acid_active st.
Proof. apply sense_frame. Qed.

Lemma loop_unfold raw now st :
  loop raw now st =
  dose (measured_pH raw st) (filtered_voltage raw st) now (sensed_state raw st).
Proof. reflexivity. Qed.

(** *** Transitions *)

Lemma base_transition_enter pH allowed :
  base_transition pH allowed false = fle pH pH_low_threshold && allowed.
Proof. unfold base_transition. destruct (_ && _); reflexivity. Qed.

Lemma acid_transition_enter pH allowed :
  acid_transition pH allowed false = fle pH_high_threshold pH && allowed.
Proof. unfold acid_transition. destruct (_ && _); reflexivity. Qed.

Lemma base_transition_hold pH allowed :
  base_transition pH allowed true = negb (fle pH_low_exit pH).
Proof. unfold base_transition. destruct (fle _ _); reflexivity. Qed.

Lemma acid_transition_hold pH allowed :
  acid_transition pH allowed true = negb (fle pH pH_high_exit).
Proof. unfold acid_transition. destruct (fle _ _); reflexivity. Qed.

(** *** Arbitration *)

Lemma resolve_conflict_exclusive pH (base acid : bool) :
  let '(b, a) := resolve_conflict pH base acid in b && a = false.
Proof.
  unfold resolve_conflict.
  destruct base, acid; cbn; try reflexivity.
  destruct (fle _ _); reflexivity.
Qed.

(** Arbitration only ever clears a flag. *)
Lemma resolve_conflict_shrinks pH (base acid : bool) :
  let '(b, a) := resolve_conflict pH base acid in
  (b = true -> base = true) /\ (a = true -> acid = true).
Proof.
  unfold resolve_conflict.
  destruct base, acid; cbn; try (split; congruence).
  destruct (fle _ _); split; congruence.
Qed.

Lemma arbitrated_exclusive pH now st :
  fst (arbitrated pH now st) && snd (arbitrated pH now st) = false.
Proof.
  unfold arbitrated.
  pose proof (resolve_conflict_exclusive pH
    (base_transition pH (allowedToRun now (lastPumpMillis st)) (base_active st))
    (acid_transition pH (allowedToRun now (lastPumpMillis st)) (acid_active st))) as Hx.
  destruct (resolve_conflict _ _ _) as [b a]. exact Hx.
Qed.

(** *** The burst is one-shot: no flag survives a cycle *)

Lemma dose_clears_flags pH v now st :
  base_active (next (dose pH v now st)) = false /\
  acid_active (next (dose pH v now st)) = false.
Proof.
  unfold dose.
  pose proof (arbitrated_exclusive pH now st) as Hx.
  destruct (arbitrated pH now st) as [b a]. cbn in Hx.
  destruct b, a; cbn in *; try discriminate; split; reflexivity.
Qed.

Lemma loop_clears_flags raw now st :
  base_active (next (loop raw now st)) = false /\
  acid_active (next (loop raw now st)) = false.
Proof. rewrite loop_unfold. apply dose_clears_flags. Qed.

Lemma setup_flags :
  base_active (setup (F:=F)) = false /\ acid_active (setup (F:=F)) = false /\
  lastPumpMillis (setup (F:=F)) = 0.
Proof. unfold setup. destruct computeCalibration. repeat split. Qed.

Lemma reachable_flags st :
  reachable st -> base_active st = false /\ acid_active st = false.
Proof.
  induction 1 as [|raw now st _ _].
  - pose proof setup_flags. tauto.
  - apply loop_clears_flags.
Qed.

Lemma run_reachable (inputs : list (Z * Z)) st :
  reachable st -> reachable (run inputs st).
Proof.
  revert st. induction inputs as [|i rest IH]; intros st Hr; cbn.
  - exact Hr.
  - apply IH. constructor. exact Hr.
Qed.

End DosingLogic.

Section DosingClaims.

Context {F : Type} {ops : FloatOps F}.

Implicit Types (pH v : F) (st : @State F) (now raw : Z).

(** A cycle that starts with both flags down and a failing gap guard
    does nothing to the dosing state. *)
Lemma dose_idle pH v now st :
  base_active st = false -> acid_active st = false ->
  allowedToRun now (lastPumpMillis st) = false ->
  dose pH v now st = mkCycle st [] (mkTelemetry pH v "none" "off").
Proof.
  intros Hb Ha Hg. unfold dose, arbitrated. rewrite Hb, Ha, Hg.
  rewrite base_transition_enter, acid_transition_enter.
  rewrite !andb_false_r. cbn.
  destruct st; cbn in *; subst; reflexivity.
Qed.

Lemma run_flags (inputs : list (Z * Z)) st :
  base_active st = false -> acid_active st = false ->
  base_active (run inputs st) = false /\ acid_active (run inputs st) = false.
Proof.
  revert st. induction inputs as [|i rest IH]; intros st Hb Ha; cbn.
  - split; assumption.
  - apply IH; apply loop_clears_flags.
Qed.

(** C1. A flag that is down is raised only under the gap guard: when
    [(now - lastPumpMillis) > minGapBetweenBursts] fails (unsigned
    32-bit subtraction, strict comparison), neither transition raises its
    flag, whatever the pH, in particular not for pH at or below 6.45 or
    at or above 7.55.  Lowering a flag that is up depends on the pH alone:
    the guard does not enter it. *)
Theorem gap_guard_gates_entry pH now st :
  ~ (ulong_sub now (lastPumpMillis st) > minGapBetweenBursts) ->
  let allowed := allowedToRun now (lastPumpMillis st) in
  base_transition pH allowed false = false /\
  acid_transition pH allowed false = false /\
  (forall guard, base_transition pH guard true = negb (fle pH_low_exit pH)) /\
  (forall guard, acid_transition pH guard true = negb (fle pH pH_high_exit)).
Proof.
  intros Hgap allowed. subst allowed.
  rewrite (allowedToRun_false _ _ Hgap).
  rewrite base_transition_enter, acid_transition_enter, !andb_false_r.
  split; [reflexivity|]. split; [reflexivity|]. split; intros guard.
  - apply base_transition_hold.
  - apply acid_transition_hold.
Qed.

(** Conversely the guard, when it holds, lets a reading at or below the
    low threshold raise the base flag. *)
Lemma base_entry_when_allowed pH now st :
  ulong_sub now (lastPumpMillis st) > minGapBetweenBursts ->
  fle pH pH_low_threshold = true ->
  base_transition pH (allowedToRun now (lastPumpMillis st)) false = true.
Proof.
  intros Hgap Hlow. apply allowedToRun_spec in Hgap.
  rewrite base_transition_enter, Hgap, Hlow. reflexivity.
Qed.

(** C4. Postcondition of a cycle, by the flags as they stand after
    arbitration: if the base flag is up the cycle records
    [lastPumpMillis = now], reports pump "basic" with action "on", runs the
    base pump for [pumpBurstMs] and stops it, and leaves the base flag
    down; otherwise, if the acid flag is up, the same for the acid pump;
    otherwise nothing fires.  In every case both flags are down when the
    cycle ends. *)
Theorem fired_dose_postcondition raw now st :
  let c := loop raw now st in
  let flags := arbitrated (measured_pH raw st) now (sensed_state raw st) in
  (if fst flags then
     lastPumpMillis (next c) = now /\
     pumpType (telemetry c) = "basic"%string /\
     pumpAction (telemetry c) = "on"%string /\
     actuation c = runBasicPump ++ [Delay pumpBurstMs] ++ stopPumps /\
     base_active (next c) = false
   else if snd flags then
     lastPumpMillis (next c) = now /\
     pumpType (telemetry c) = "acidic"%string /\
     pumpAction (telemetry c) = "on"%string /\
     actuation c = runAcidicPump ++ [Delay pumpBurstMs] ++ stopPumps /\
     acid_active (next c) = false
   else
     lastPumpMillis (next c) = lastPumpMillis st /\
     pumpType (telemetry c) = "none"%string /\
     pumpAction (telemetry c) = "off"%string /\
     actuation c = []) /\
  base_active (next c) = false /\ acid_active (next c) = false.
Proof.
  intros c flags. split; [|apply loop_clears_flags].
  subst c flags. rewrite loop_unfold. unfold dose.
  destruct (arbitrated _ _ _) as [b a]; cbn [fst snd].
  destruct b; [|destruct a]; cbn; repeat split.
Qed.

(** C3, as the sketch behaves. A reading at or below 6.45 in a cycle whose
    gap guard holds, with the base flag down at the start, raises the
    base flag in the transition step of that cycle; the flag is lowered
    again before the cycle ends, and it is down at the start of every
    later cycle, whatever is read then. *)
Theorem base_entry_is_one_shot raw now st (later : list (Z * Z)) :
  base_active st = false ->
  ulong_sub now (lastPumpMillis st) > minGapBetweenBursts ->
  fle (measured_pH raw st) pH_low_threshold = true ->
  base_transition (measured_pH raw st)
    (allowedToRun now (lastPumpMillis (sensed_state raw st)))
    (base_active (sensed_state raw st)) = true /\
  base_active (next (loop raw now st)) = false /\
  base_active (run later (next (loop raw now st))) = false.
Proof.
  intros Hb Hgap Hlow.
  destruct (sensed_state_frame raw st) as (Hl & _ & _ & Hb1 & _).
  rewrite Hl, Hb1, Hb. split; [|split].
  - apply base_entry_when_allowed; assumption.
  - apply loop_clears_flags.
  - apply run_flags; apply loop_clears_flags.
Qed.

(** C9. In every reachable state both flags are down, so a flag is up
    only within a cycle.  Hence, in a cycle started from a reachable
    state, the assignments that lower the base flag at pH >= 6.7 (line
    154) and the acid flag at pH <= 7.3 (line 164) are not executed, and,
    the two entry thresholds being disjoint, neither is the conflict
    branch (lines 175-178). *)
Theorem flags_only_transient st raw now :
  thresholds_disjoint (F:=F) ->
  reachable st ->
  base_active st = false /\ acid_active st = false /\
  base_exit_taken (measured_pH raw st) (sensed_state raw st) = false /\
  acid_exit_taken (measured_pH raw st) (sensed_state raw st) = false /\
  conflict_taken (measured_pH raw st) now (sensed_state raw st) = false.
Proof.
  intros Hdis Hr.
  destruct (reachable_flags st Hr) as [Hb Ha].
  destruct (sensed_state_frame raw st) as (_ & _ & _ & Hb1 & Ha1).
  unfold base_exit_taken, acid_exit_taken, conflict_taken.
  rewrite Hb1, Ha1, Hb, Ha. repeat split.
  rewrite base_transition_enter, acid_transition_enter.
  destruct (fle (measured_pH raw st) pH_low_threshold) eqn:El; [|reflexivity].
  destruct (fle pH_high_threshold (measured_pH raw st)) eqn:Eh;
    [|destruct (allowedToRun _ _); reflexivity].
  destruct (Hdis _ El Eh).
Qed.

(** C10. [lastPumpMillis] starts at 0 and the guard is strict, so as long
    as [millis] has not passed [minGapBetweenBursts] no cycle fires a
    dose, whatever is read from the probe: each such cycle reports
    "none"/"off", actuates nothing and leaves [lastPumpMillis] at 0. *)
Theorem no_dose_before_first_gap (inputs : list (Z * Z)) :
  Forall (fun i => 0 <= snd i <= minGapBetweenBursts) inputs ->
  Forall (fun c =>
            pumpType (telemetry c) = "none"%string /\
            pumpAction (telemetry c) = "off"%string /\
            actuation c = [] /\
            lastPumpMillis (next c) = 0)
         (cycles inputs (setup (F:=F))).
Proof.
  pose proof (setup_flags (F:=F)) as (Hb & Ha & Hl).
  revert Hb Ha Hl. generalize (setup (F:=F)) as st.
  induction inputs as [|[raw now] rest IH]; intros st Hb Ha Hl Hin;
    cbn [cycles fst snd].
  - constructor.
  - inversion Hin as [|? ? Hnow Hrest]; subst. cbn in Hnow.
    destruct (sensed_state_frame raw st) as (Hl1 & _ & _ & Hb1 & Ha1).
    assert (Hidle : allowedToRun now (lastPumpMillis (sensed_state raw st)) = false).
    { apply allowedToRun_false. rewrite Hl1, Hl.
      rewrite ulong_sub_nowrap; unfold ulong_modulus, minGapBetweenBursts in *; lia. }
    rewrite loop_unfold, dose_idle by congruence.
    constructor.
    + cbn. repeat split; congruence.
    + apply IH; cbn; congruence.
Qed.

End DosingClaims.

(** ** The moving-average filter, for any carrier *)

(** Arithmetic on ring-buffer positions. *)
Ltac ring_index :=
  unfold MA_SIZE in *; zify; Z.to_euclidean_division_equations; lia.

Section Filter.

Context {F : Type} {ops : FloatOps F}.

Implicit Types (v : F) (vs : list F) (st : @State F).

Lemma applyMA_output v st :
  snd (applyMA v st) =
  fdiv (fold_left fadd
          (take (maCount (fst (applyMA v st))) (maBuffer (fst (applyMA v st))))
          (lit 0.0))
       (of_int (Z.of_nat (maCount (fst (applyMA v st))))).
Proof. reflexivity. Qed.

Lemma feed_snoc vs v st : feed (vs ++ [v]) st = fst (applyMA v (feed vs st)).
Proof. unfold feed. rewrite fold_left_app. reflexivity. Qed.

Lemma setup_filter :
  maBuffer (setup (F:=F)) = replicate MA_SIZE (lit 0.0) /\
  maIndex (setup (F:=F)) = 0%nat /\ maCount (setup (F:=F)) = 0%nat.
Proof. unfold setup. destruct computeCalibration. repeat split. Qed.

(** While the buffer is filling, it holds the pushed samples in order,
    followed by the zeros written by [setup]. *)
Lemma feed_setup vs :
  (length vs <= MA_SIZE)%nat ->
  maBuffer (feed vs setup) = vs ++ replicate (MA_SIZE - length vs) (lit 0.0) /\
  maIndex (feed vs setup) = (length vs mod MA_SIZE)%nat /\
  maCount (feed vs setup) = length vs.
Proof.
  induction vs as [|v vs IH] using rev_ind; intros Hlen.
  - destruct setup_filter as (Hb & Hi & Hc). cbn [feed fold_left length].
    rewrite Hb, Hi, Hc, Nat.sub_0_r. repeat split.
  - rewrite length_app in Hlen. cbn [length] in Hlen.
    destruct IH as (Hb & Hi & Hc); [lia|].
    rewrite feed_snoc. unfold applyMA. cbn [fst maBuffer maIndex maCount].
    rewrite Hb, Hi, Hc, length_app. cbn [length].
    assert (Hk : (length vs mod MA_SIZE = length vs)%nat)
      by (apply Nat.mod_small; lia).
    rewrite Hk. split; [|split].
    + rewrite insert_app_r_alt by lia. rewrite Nat.sub_diag.
      replace (MA_SIZE - length vs)%nat with (S (MA_SIZE - (length vs + 1)))
        by lia.
      cbn. rewrite <- app_assoc. reflexivity.
    + reflexivity.
    + destruct (Nat.ltb_spec (length vs) MA_SIZE); lia.
Qed.

(** Before the buffer is full the filter returns the carrier's sum of
    exactly the pushed samples divided by their number. *)
Lemma applyMA_pushed_prefix vs v :
  (length (vs ++ [v]) <= MA_SIZE)%nat ->
  snd (applyMA v (feed vs setup)) =
  fdiv (fold_left fadd (vs ++ [v]) (lit 0.0))
       (of_int (Z.of_nat (length (vs ++ [v])))).
Proof.
  intros Hlen. rewrite applyMA_output, <- feed_snoc.
  destruct (feed_setup (vs ++ [v]) Hlen) as (Hb & _ & Hc).
  rewrite Hb, Hc, take_app_length. reflexivity.
Qed.

Lemma setup_filter_wf : filter_wf (setup (F:=F)).
Proof.
  destruct setup_filter as (Hb & Hi & Hc). unfold filter_wf.
  rewrite Hb, Hi, Hc, length_replicate. unfold MA_SIZE. lia.
Qed.

Lemma applyMA_filter_wf v st : filter_wf st -> filter_wf (fst (applyMA v st)).
Proof.
  intros (Hb & Hi & Hc). unfold filter_wf, applyMA.
  cbn [fst maBuffer maIndex maCount]. rewrite length_insert.
  split; [exact Hb|]. split.
  - apply Nat.mod_upper_bound. unfold MA_SIZE. lia.
  - destruct (Nat.ltb_spec (maCount st) MA_SIZE); lia.
Qed.

Lemma recent_push v m st :
  recent v m st -> recent v (S m) (fst (applyMA v st)).
Proof.
  intros (Hwf & Hcnt & Hslots).
  split; [apply applyMA_filter_wf; exact Hwf|].
  destruct Hwf as (Hb & Hi & Hc).
  unfold applyMA. cbn [fst maBuffer maIndex maCount]. split.
  - destruct (Nat.ltb_spec (maCount st) MA_SIZE); lia.
  - intros j Hj HjN.
    destruct (decide (((maIndex st + 1) mod MA_SIZE + MA_SIZE - 1 - j) mod MA_SIZE
                      = maIndex st)%nat) as [E|E].
    + rewrite E. apply list_lookup_insert_eq. lia.
    + rewrite list_lookup_insert_ne by congruence.
      destruct j as [|j]; [exfalso; apply E; ring_index|].
      replace (((maIndex st + 1) mod MA_SIZE + MA_SIZE - 1 - S j) mod MA_SIZE)%nat
        with ((maIndex st + MA_SIZE - 1 - j) mod MA_SIZE)%nat
        by ring_index.
      apply Hslots; lia.
Qed.

Lemma recent_feed v m st :
  filter_wf st -> recent v m (feed (replicate m v) st).
Proof.
  intros Hwf. induction m as [|m IH].
  - cbn. split; [exact Hwf|]. split; [lia|]. intros j Hj. lia.
  - rewrite replicate_S_end, feed_snoc. apply recent_push, IH.
Qed.

(** Once [MA_SIZE] or more equal samples have been pushed, every slot
    holds that sample and the count is [MA_SIZE]. *)
Lemma recent_full v m st :
  (MA_SIZE <= m)%nat -> recent v m st ->
  maBuffer st = replicate MA_SIZE v /\ maCount st = MA_SIZE.
Proof.
  intros Hm ((Hb & Hi & Hc) & Hcnt & Hslots). split; [|lia].
  apply list_eq. intros p.
  destruct (Nat.lt_ge_cases p MA_SIZE) as [Hp|Hp].
  - rewrite lookup_replicate_2 by exact Hp.
    specialize (Hslots ((maIndex st + MA_SIZE - 1 - p) mod MA_SIZE)%nat).
    replace ((maIndex st + MA_SIZE - 1
              - (maIndex st + MA_SIZE - 1 - p) mod MA_SIZE) mod MA_SIZE)%nat
      with p in Hslots by ring_index.
    apply Hslots; ring_index.
  - rewrite lookup_ge_None_2 by lia.
    symmetry. apply lookup_replicate_None. exact Hp.
Qed.

(** The value returned by the last of [m + 1] pushes of [v], when
    [m + 1 >= MA_SIZE], from any well-formed filter state. *)
Lemma applyMA_constant_full v m st :
  filter_wf st -> (MA_SIZE <= S m)%nat ->
  snd (applyMA v (feed (replicate m v) st)) =
  fdiv (fold_left fadd (replicate MA_SIZE v) (lit 0.0))
       (of_int (Z.of_nat MA_SIZE)).
Proof.
  intros Hwf Hm. rewrite applyMA_output, <- feed_snoc, <- replicate_S_end.
  destruct (recent_full v (S m) _ Hm (recent_feed v (S m) st Hwf)) as [Hb Hc].
  rewrite Hb, Hc, take_replicate, Nat.min_id. reflexivity.
Qed.

End Filter.

(** ** The calibration, for any carrier *)

Section Calibration.

Context {F : Type} {ops : FloatOps F}.


End Calibration.

(** ** Exact rational arithmetic *)

Import Exact.

Local Open Scope Q_scope.

Ltac exact_ops :=
  cbn [fadd fsub fmul fdiv flt fle fabs of_int lit Q_ops] in *.

Section ExactArithmetic.

Implicit Types (x y : Q * Q * Q) (st : @State Q).

Lemma fle_Q (a b : Q) : fle a b = true <-> a <= b.
Proof. exact_ops. apply Qle_bool_iff. Qed.

Lemma flt_Q (a b : Q) : flt a b = true <-> a < b.
Proof.
  exact_ops. rewrite negb_true_iff, <- not_true_iff_false, Qle_bool_iff.
  split; [apply Qnot_le_lt | apply Qlt_not_le].
Qed.

Lemma lit_Q (q : Q) : lit q == q.
Proof. exact_ops. apply Qred_correct. Qed.

(** No rational is at once at most 6.45 and at least 7.55. *)
Lemma thresholds_disjoint_Q : thresholds_disjoint (F:=Q).
Proof.
  intros pH Hlo Hhi. apply fle_Q in Hlo, Hhi.
  unfold pH_low_threshold, pH_high_threshold in *.
  rewrite lit_Q in Hlo, Hhi. lra.
Qed.

(** *** Arbitration *)

Lemma resolve_conflict_Q (pH : Q) :
  resolve_conflict pH true true =
  if Qle_bool (Qabs (pH - 7.5)) (Qabs (pH - 6.5)) then (true, false)
  else (false, true).
Proof.
  unfold resolve_conflict. cbn [andb]. exact_ops.
  assert (E65 : Qred 6.5 == 6.5) by apply Qred_correct.
  assert (E75 : Qred 7.5 == 7.5) by apply Qred_correct.
  rewrite E65, E75. reflexivity.
Qed.

(** C2. After arbitration at most one flag is up, in every cycle.  When
    both are up entering the arbitration, the flag whose deviation from
    its centre (|pH - 6.5| for base, |pH - 7.5| for acid) is larger stays
    up and the other is lowered; on a tie base stays up.  For pH = 6.9
    acid stays up and base is lowered. *)
Theorem conflict_keeps_larger_deviation :
  (forall (F : Type) (ops : FloatOps F) (pH : F) (now : Z) (st : @State F),
      fst (arbitrated pH now st) && snd (arbitrated pH now st) = false) /\
  (forall pH : Q,
      let devBase := Qabs (pH - 6.5) in
      let devAcid := Qabs (pH - 7.5) in
      (devAcid < devBase -> resolve_conflict pH true true = (true, false)) /\
      (devBase < devAcid -> resolve_conflict pH true true = (false, true)) /\
      (devBase == devAcid -> resolve_conflict pH true true = (true, false))) /\
  resolve_conflict (F:=Q) 6.9 true true = (false, true).
Proof.
  split; [|split].
  - intros F ops pH now st. apply arbitrated_exclusive.
  - intros pH devBase devAcid. rewrite resolve_conflict_Q.
    fold devBase devAcid.
    destruct (Qle_bool devAcid devBase) eqn:E.
    + apply Qle_bool_iff in E. repeat split; intros H; try reflexivity.
      exfalso. apply (Qlt_not_le _ _ H E).
    + assert (Hn : ~ devAcid <= devBase)
        by (rewrite <- Qle_bool_iff, E; discriminate).
      repeat split; intros H; try reflexivity; exfalso; apply Hn.
      * apply Qlt_le_weak, H.
      * rewrite H. apply Qle_refl.
  - reflexivity.
Qed.

(** *** Clamping *)

Lemma compute_pH_Q (s i v : Q) :
  compute_pH s i v == Qmin 14 (Qmax 0 (s * v + i)) /\
  0 <= compute_pH s i v <= 14.
Proof.
  unfold compute_pH. exact_ops. change (inject_Z 0) with 0. change (inject_Z 14) with 14.
  set (x := s * v + i).
  destruct (Qle_bool 0 x) eqn:E0; cbn [negb].
  - apply Qle_bool_iff in E0.
    destruct (Qle_bool x 14) eqn:E14; cbn [negb].
    + apply Qle_bool_iff in E14.
      rewrite (Q.max_r 0 x E0), (Q.min_r 14 x E14). repeat split; auto with qarith.
    + assert (H14 : 14 < x)
        by (apply Qnot_le_lt; rewrite <- Qle_bool_iff, E14; discriminate).
      rewrite (Q.max_r 0 x E0), (Q.min_l 14 x (Qlt_le_weak _ _ H14)).
      repeat split; try reflexivity; lra.
  - assert (H0 : x < 0)
      by (apply Qnot_le_lt; rewrite <- Qle_bool_iff, E0; discriminate).
    change (Qle_bool 0 14) with true. cbn [negb].
    rewrite (Q.max_l 0 x (Qlt_le_weak _ _ H0)), (Q.min_r 14 0) by lra.
    repeat split; try reflexivity; lra.
Qed.

(** C8. In every cycle the pH reported and handed to the dosing decision
    is [slope * v + intercept] clamped to [0, 14], where [v] is the
    filtered voltage of that cycle.  There is no precondition and [loop]
    has no error result. *)
Theorem pH_is_clamped_calibration (raw now : Z) st :
  let v := filtered_voltage raw st in
  let pH := measured_pH raw st in
  loop raw now st = dose pH v now (sensed_state raw st) /\
  t_pH (telemetry (loop raw now st)) = pH /\
  t_voltage (telemetry (loop raw now st)) = v /\
  pH == Qmin 14 (Qmax 0 (slope st * v + intercept st)) /\
  0 <= pH <= 14.
Proof.
  intros v pH. split; [reflexivity|].
  assert (Ht : t_pH (telemetry (loop raw now st)) = pH /\
               t_voltage (telemetry (loop raw now st)) = v).
  { rewrite loop_unfold. unfold dose.
    destruct (arbitrated _ _ _) as [b a]. destruct b; [|destruct a]; split; reflexivity. }
  destruct Ht as [Hp Hv]. split; [exact Hp|]. split; [exact Hv|].
  apply (compute_pH_Q (slope st) (intercept st) v).
Qed.

(** *** Calibration *)








(** *** Moving average *)

Lemma fold_left_Qplus (l : list Q) (a : Q) :
  fold_left Qplus l a == a + Qsum l.
Proof.
  revert a. induction l as [|b l IH]; intros a.
  - change (a == a + 0). ring.
  - change (fold_left Qplus l (a + b) == a + (b + Qsum l)).
    rewrite IH. ring.
Qed.

Lemma Qsum_replicate (n : nat) (v : Q) :
  Qsum (replicate n v) == inject_Z (Z.of_nat n) * v.
Proof.
  induction n as [|n IH].
  - unfold Qsum. cbn [replicate foldr Z.of_nat]. change (inject_Z 0) with 0. ring.
  - rewrite Nat2Z.inj_succ. unfold Z.succ. rewrite inject_Z_plus.
    cbn [replicate Qsum foldr]. fold (Qsum (replicate n v)). rewrite IH.
    change (inject_Z 1) with 1. ring.
Qed.

Lemma inject_nat_nonzero (n : nat) :
  (0 < n)%nat -> ~ inject_Z (Z.of_nat n) == 0.
Proof.
  intros Hn E. change 0 with (inject_Z 0) in E.
  rewrite inject_Z_injective in E. lia.
Qed.

(** A step to [v] is reproduced once [MA_SIZE] samples of it are in. *)
Lemma filter_converges (v : Q) (m : nat) st :
  filter_wf st -> (MA_SIZE <= S m)%nat ->
  snd (applyMA v (feed (replicate m v) st)) == v.
Proof.
  intros Hwf Hm. rewrite (applyMA_constant_full v m st Hwf Hm). exact_ops.
  change (Qred 0.0) with 0.
  rewrite fold_left_Qplus, Qsum_replicate. field.
  apply inject_nat_nonzero. unfold MA_SIZE. lia.
Qed.

(** While the buffer is filling, the value returned is the arithmetic
    mean of the samples pushed. *)
Lemma applyMA_prefix_Qmean (vs : list Q) (v : Q) :
  (length (vs ++ [v]) <= MA_SIZE)%nat ->
  snd (applyMA v (feed vs setup)) == Qmean (vs ++ [v]).
Proof.
  intros Hlen. rewrite applyMA_pushed_prefix by exact Hlen. exact_ops.
  change (Qred 0.0) with 0. unfold Qmean.
  rewrite fold_left_Qplus. field.
  apply inject_nat_nonzero. rewrite length_app. cbn. lia.
Qed.

End ExactArithmetic.

(** ** IEEE-754 binary32 *)

Import Binary32.

Local Open Scope Z_scope.

Section Binary32Arithmetic.

(** The four thresholds as binary32 numbers; all lie in [4, 8) and share
    the exponent -21. *)
Lemma thresholds_binary32 :
  pH_low_threshold = S754_finite false 13526630 (-21) /\
  pH_low_exit = S754_finite false 14050918 (-21) /\
  pH_high_exit = S754_finite false 15309210 (-21) /\
  pH_high_threshold = S754_finite false 15833498 (-21).
Proof. repeat split; vm_compute; reflexivity. Qed.

Lemma comparison_not_Gt (c : comparison) :
  match c with Gt => false | _ => true end = true -> c <> Gt.
Proof. destruct c; intros H E; discriminate. Qed.

(** No value, NaN and infinities included, is at once at most one
    positive float and at least a larger one of the same exponent. *)
Lemma SFleb_between (x : spec_float) (m1 m2 : positive) (e : Z) :
  (m1 < m2)%positive ->
  SFleb x (S754_finite false m1 e) = true ->
  SFleb (S754_finite false m2 e) x = true ->
  False.
Proof.
  intros Hm. unfold SFleb, SFcompare.
  destruct x as [s | s | | s m ex]; try destruct s;
    try (intros; discriminate).
  rewrite (Z.compare_antisym ex e).
  destruct (Z.compare_spec ex e) as [-> | He | He]; cbn [CompOpp];
    try (intros; discriminate).
  change (PosDef.Pos.compare_cont Eq) with Pos.compare.
  intros Hlo Hhi. apply comparison_not_Gt in Hlo, Hhi.
  apply (proj1 (Pos.lt_nle m1 m2) Hm). exact (Pos.le_trans _ _ _ Hhi Hlo).
Qed.

(** No binary32 value, NaN and infinities included, is at once at most
    6.45f and at least 7.55f. *)
Lemma thresholds_disjoint_binary32 : thresholds_disjoint (F:=spec_float).
Proof.
  intros pH.
  destruct thresholds_binary32 as (-> & _ & _ & ->).
  apply SFleb_between. reflexivity.
Qed.

(** The end-to-end scenario of the specification: with slope -1.5 and
    intercept 11 a filtered voltage of 3.2 reads as pH 6.2, which fires a
    base burst and records the time of the dose. *)
Example binary32_end_to_end :
  let st := mkState (replicate MA_SIZE (lit 0.0)) 0 0 0 false
                    (lit (-1.5)%Q) (lit 11%Q) false false in
  let pH : spec_float := compute_pH (slope st) (intercept st) (lit 3.2%Q) in
  let c := dose pH (lit 3.2%Q) 20000 st in
  pH = lit 6.2%Q /\
  pumpType (telemetry c) = "basic"%string /\
  pumpAction (telemetry c) = "on"%string /\
  actuation c = runBasicPump ++ [Delay 1200] ++ stopPumps /\
  lastPumpMillis (next c) = 20000 /\
  base_active (next c) = false.
Proof. vm_compute. repeat split. Qed.

(** The arbitration example of the specification, in binary32. *)
Example binary32_conflict_at_6_9 :
  resolve_conflict (F:=spec_float) (lit 6.9%Q) true true = (false, true).
Proof. vm_compute. reflexivity. Qed.

(** Rounding is outside the statements proved for exact rationals.  Two
    places where it shows: three equal voltages of 3.6f leave a residue
    2^-17 in the denominator, which is above 1e-6, so the regression
    branch is taken; and ten samples of 0.1f average to the next float
    above 0.1f. *)
Remark binary32_equal_voltages_residue :
  let x : spec_float := lit 3.6%Q in
  fit (x, x, x) (lit 4%Q, lit 5%Q, lit 10%Q)
  = (S754_finite false 8388608 (-21), S754_finite true 8458512 (-20)).
Proof. vm_compute. reflexivity. Qed.

Remark binary32_constant_samples_rounding :
  let v : spec_float := lit 0.1%Q in
  v = S754_finite false 13421773 (-27) /\
  snd (applyMA v (feed (replicate 9 v) setup)) = S754_finite false 13421774 (-27).
Proof. vm_compute. split; reflexivity. Qed.

End Binary32Arithmetic.

(** ** Concrete runs *)

(** Evaluation of closed comparisons between rationals. *)
Ltac eval_Q :=
  lazymatch goal with
  | |- (_ <= _)%Q => apply Qle_bool_iff; vm_compute; reflexivity
  | |- (_ < _)%Q => vm_compute; reflexivity
  | |- ~ (_ < _)%Q => apply Qle_not_lt, Qle_bool_iff; vm_compute; reflexivity
  | |- (_ == _)%Q => vm_compute; reflexivity
  | |- _ => vm_compute; reflexivity
  end.

(** C3, as stated, fails. Started from [setup], a cycle at 20 s reading
    raw 614 sees pH about 6.18 under a holding guard and raises the base
    flag in its transition step; the flag is down again when that cycle
    ends.  The next cycle reads a pH of about 6.60, between 6.45 and 6.7, so
    no reading at or above 6.7 has occurred, and the flag is still down. *)
Lemma base_flag_not_held_across_cycles :
  let c1 := loop (F:=Q) 614 20000 setup in
  let c2 := loop (F:=Q) 549 22000 (next c1) in
  allowedToRun 20000 (lastPumpMillis (sensed_state (F:=Q) 614 setup)) = true /\
  (measured_pH 614 setup <= 6.45)%Q /\
  fst (arbitrated (measured_pH 614 setup) 20000 (sensed_state 614 setup)) = true /\
  base_active (next c1) = false /\
  (6.45 < measured_pH 549 (next c1))%Q /\
  (measured_pH 549 (next c1) < 6.7)%Q /\
  base_active (next c2) = false.
Proof. repeat split; eval_Q. Qed.

(** *** The theorems with hypotheses, at concrete inputs *)

Lemma gap_guard_gates_entry_witness :
  ~ (ulong_sub 5000 (lastPumpMillis (setup (F:=Q))) > minGapBetweenBursts) /\
  base_transition (F:=Q) 6.2%Q
    (allowedToRun 5000 (lastPumpMillis (setup (F:=Q)))) false = false.
Proof.
  assert (H : ~ (ulong_sub 5000 (lastPumpMillis (setup (F:=Q)))
                 > minGapBetweenBursts)).
  { vm_compute. intros E. discriminate E. }
  split; [exact H|].
  exact (proj1 (gap_guard_gates_entry (F:=Q) 6.2%Q 5000 setup H)).
Defined.

Lemma conflict_keeps_larger_deviation_witness :
  ((Qabs (6.9 - 6.5) < Qabs (6.9 - 7.5))%Q /\
   resolve_conflict (F:=Q) 6.9%Q true true = (false, true)) /\
  ((Qabs (7.4 - 7.5) < Qabs (7.4 - 6.5))%Q /\
   resolve_conflict (F:=Q) 7.4%Q true true = (true, false)) /\
  ((Qabs (7 - 6.5) == Qabs (7 - 7.5))%Q /\
   resolve_conflict (F:=Q) 7%Q true true = (true, false)).
Proof.
  destruct conflict_keeps_larger_deviation as (_ & H & _).
  assert (Hacid : (Qabs (6.9 - 6.5) < Qabs (6.9 - 7.5))%Q) by eval_Q.
  assert (Hbase : (Qabs (7.4 - 7.5) < Qabs (7.4 - 6.5))%Q) by eval_Q.
  assert (Htie : (Qabs (7 - 6.5) == Qabs (7 - 7.5))%Q) by eval_Q.
  split; [split; [exact Hacid|]|split; [split; [exact Hbase|]|split; [exact Htie|]]].
  - exact (proj1 (proj2 (H 6.9%Q)) Hacid).
  - exact (proj1 (H 7.4%Q) Hbase).
  - exact (proj2 (proj2 (H 7%Q)) Htie).
Defined.

Lemma base_entry_is_one_shot_witness :
  (ulong_sub 20000 (lastPumpMillis (setup (F:=Q))) > minGapBetweenBursts /\
   fle (measured_pH (F:=Q) 614 setup) pH_low_threshold = true) /\
  base_active (next (loop (F:=Q) 614 20000 setup)) = false /\
  base_active (run [(549, 22000)] (next (loop (F:=Q) 614 20000 setup))) = false.
Proof.
  assert (Hgap : ulong_sub 20000 (lastPumpMillis (setup (F:=Q)))
                 > minGapBetweenBursts) by (vm_compute; reflexivity).
  assert (Hlow : fle (measured_pH (F:=Q) 614 setup) pH_low_threshold = true)
    by (vm_compute; reflexivity).
  split; [split; assumption|].
  refine (proj2 (base_entry_is_one_shot (F:=Q) 614 20000 setup [(549, 22000)]
                   _ Hgap Hlow)); vm_compute; reflexivity.
Defined.


Lemma flags_only_transient_witness :
  let st := next (loop (F:=Q) 614 20000 setup) in
  reachable st /\
  base_active st = false /\ acid_active st = false /\
  conflict_taken (measured_pH 549 st) 22000 (sensed_state 549 st) = false.
Proof.
  intros st.
  assert (Hr : reachable st) by (apply reachable_loop, reachable_setup).
  split; [exact Hr|].
  destruct (flags_only_transient st 549 22000 thresholds_disjoint_Q Hr)
    as (Hb & Ha & _ & _ & Hc).
  repeat split; assumption.
Defined.

Lemma no_dose_before_first_gap_witness :
  Forall (fun i => 0 <= snd i <= minGapBetweenBursts) [(614, 1000); (300, 10000)] /\
  Forall (fun c : @Cycle Q =>
            pumpType (telemetry c) = "none"%string /\
            pumpAction (telemetry c) = "off"%string /\
            actuation c = [] /\
            lastPumpMillis (next c) = 0)
         (cycles [(614, 1000); (300, 10000)] setup).
Proof.
  assert (H : Forall (fun i => 0 <= snd i <= minGapBetweenBursts)
                     [(614, 1000); (300, 10000)]).
  { repeat constructor; cbn; unfold minGapBetweenBursts; lia. }
  split; [exact H|].
  exact (no_dose_before_first_gap (F:=Q) _ H).
Defined.


(** * Further properties of the sketch *)

(** ** State invariants of a run, for any carrier *)

Section RunInvariants.

Context {F : Type} {ops : FloatOps F}.

Implicit Types (pH v : F) (st : @State F) (now raw : Z).

Lemma run_snoc (inputs : list (Z * Z)) (i : Z * Z) st :
  run (inputs ++ [i]) st = next (loop (fst i) (snd i) (run inputs st)).
Proof. unfold run. rewrite fold_left_app. reflexivity. Qed.

Lemma dose_frame pH v now st :
  filter_of (next (dose pH v now st)) = filter_of st /\
  slope (next (dose pH v now st)) = slope st /\
  intercept (next (dose pH v now st)) = intercept st.
Proof.
  unfold dose. destruct (arbitrated pH now st) as [b a].
  destruct b; [|destruct a]; repeat split.
Qed.

Lemma loop_filter_of raw now st :
  filter_of (next (loop raw now st)) = filter_of (fst (applyMA (readVoltage raw) st)).
Proof. rewrite loop_unfold. apply dose_frame. Qed.

(** [applyMA] reads and writes the three filter variables only. *)
Lemma applyMA_filter_of v (s1 s2 : @State F) :
  filter_of s1 = filter_of s2 ->
  filter_of (fst (applyMA v s1)) = filter_of (fst (applyMA v s2)) /\
  snd (applyMA v s1) = snd (applyMA v s2).
Proof.
  unfold filter_of. intros E. injection E as Eb Ei Ec.
  unfold applyMA. cbn [fst snd maBuffer maIndex maCount].
  rewrite Eb, Ei, Ec. split; reflexivity.
Qed.

(** The filter variables after a run are those after feeding the filter
    the voltages read. *)
Lemma run_filter_of (inputs : list (Z * Z)) (s1 s2 : @State F) :
  filter_of s1 = filter_of s2 ->
  filter_of (run inputs s1)
  = filter_of (feed (map (fun i => readVoltage (fst i)) inputs) s2).
Proof.
  revert s1 s2. induction inputs as [|i rest IH]; intros s1 s2 E.
  - exact E.
  - cbn [run feed map fold_left]. apply IH.
    rewrite loop_filter_of. apply applyMA_filter_of, E.
Qed.

Lemma feed_shape (vs : list F) :
  filter_wf (feed vs setup) /\
  maIndex (feed vs setup) = (length vs mod MA_SIZE)%nat /\
  maCount (feed vs setup) = (length vs `min` MA_SIZE)%nat.
Proof.
  induction vs as [|v vs IH] using rev_ind.
  - destruct (setup_filter (F:=F)) as (_ & Hi & Hc).
    split; [apply setup_filter_wf|]. cbn [feed fold_left length].
    rewrite Hi, Hc. split; reflexivity.
  - destruct IH as (Hwf & Hi & Hc). rewrite feed_snoc.
    split; [apply applyMA_filter_wf, Hwf|].
    unfold applyMA. cbn [fst maIndex maCount].
    rewrite Hi, Hc, length_app. cbn [length]. split.
    + ring_index.
    + destruct (Nat.ltb_spec (length vs `min` MA_SIZE) MA_SIZE);
        unfold MA_SIZE in *; lia.
Qed.

(** X1. The buffer accesses of [applyMA] stay in range and its division is
    never by zero: after any number of cycles the buffer has [MA_SIZE]
    slots, [maIndex] is the number of cycles modulo [MA_SIZE], [maCount] is
    the number of cycles capped at [MA_SIZE], and the count by which the
    next cycle divides is between 1 and [MA_SIZE]. *)
Theorem filter_accesses_in_range (inputs : list (Z * Z)) raw :
  let st := run inputs (setup (F:=F)) in
  length (maBuffer st) = MA_SIZE /\
  maIndex st = (length inputs mod MA_SIZE)%nat /\
  (maIndex st < length (maBuffer st))%nat /\
  maCount st = (length inputs `min` MA_SIZE)%nat /\
  (1 <= maCount (sensed_state raw st) <= MA_SIZE)%nat.
Proof.
  intros st.
  pose proof (run_filter_of inputs setup setup eq_refl) as E.
  fold st in E. unfold filter_of in E. injection E as Eb Ei Ec.
  destruct (feed_shape (map (fun i => readVoltage (fst i)) inputs))
    as ((Hlen & Hidx & Hcnt) & Hi & Hc).
  rewrite length_map in Hi, Hc.
  rewrite <- Eb in Hlen. rewrite <- Ei in Hidx, Hi. rewrite <- Ec in Hcnt, Hc.
  repeat split; try assumption; try lia.
  - change (maCount (sensed_state raw st))
      with (if (maCount st <? MA_SIZE)%nat then S (maCount st) else maCount st).
    destruct (Nat.ltb_spec (maCount st) MA_SIZE); unfold MA_SIZE in *; lia.
  - change (maCount (sensed_state raw st))
      with (if (maCount st <? MA_SIZE)%nat then S (maCount st) else maCount st).
    destruct (Nat.ltb_spec (maCount st) MA_SIZE); lia.
Qed.

Lemma reachable_calibration st :
  reachable st -> (slope st, intercept st) = computeCalibration.
Proof.
  induction 1 as [|raw now st _ IH].
  - unfold setup. destruct computeCalibration. reflexivity.
  - rewrite loop_unfold.
    destruct (dose_frame (measured_pH raw st) (filtered_voltage raw st) now
                (sensed_state raw st)) as (_ & -> & ->).
    destruct (sensed_state_frame raw st) as (_ & -> & -> & _). exact IH.
Qed.

(** X5. The calibration is computed once: in every reachable state [slope]
    and [intercept] are the pair [computeCalibration] returned in [setup],
    and the pH of every cycle is the clamped image of its filtered
    voltage under that pair. *)
Theorem calibration_is_fixed st raw :
  reachable st ->
  (slope st, intercept st) = computeCalibration /\
  measured_pH raw st
  = compute_pH (fst computeCalibration) (snd computeCalibration)
               (filtered_voltage raw st).
Proof.
  intros Hr. pose proof (reachable_calibration st Hr) as E.
  split; [exact E|]. rewrite <- E. reflexivity.
Qed.

(** X6. [pumpRunning] is never true. *)
Theorem pumpRunning_never_set st : reachable st -> pumpRunning st = false.
Proof.
  induction 1 as [|raw now st _ IH].
  - unfold setup. destruct computeCalibration. reflexivity.
  - rewrite loop_unfold. unfold dose.
    destruct (arbitrated _ _ _) as [b a]. destruct b; [|destruct a]; try reflexivity.
    exact IH.
Qed.

(** ** Doses over time *)

(** A dose fires only when more than [minGapBetweenBursts] has passed
    since the time recorded in [lastPumpMillis]; the cycle then records its
    own clock value. *)
Lemma dose_needs_gap raw now st :
  reachable st ->
  pumpAction (telemetry (loop raw now st)) = "on"%string ->
  ulong_sub now (lastPumpMillis st) > minGapBetweenBursts /\
  lastPumpMillis (next (loop raw now st)) = now.
Proof.
  intros Hr Hon.
  destruct (reachable_flags st Hr) as [Hb Ha].
  destruct (sensed_state_frame raw st) as (Hl & _ & _ & Hb1 & Ha1).
  rewrite loop_unfold in *.
  destruct (allowedToRun now (lastPumpMillis (sensed_state raw st))) eqn:Eg.
  - split; [rewrite <- Hl; apply allowedToRun_spec, Eg|].
    unfold dose in *. destruct (arbitrated _ _ _) as [b a].
    destruct b; [|destruct a]; try reflexivity. discriminate Hon.
  - rewrite dose_idle in Hon by congruence. discriminate Hon.
Qed.

(** A cycle without a dose leaves [lastPumpMillis] as it was. *)
Lemma idle_cycle_keeps_time raw now st :
  pumpAction (telemetry (loop raw now st)) = "off"%string ->
  lastPumpMillis (next (loop raw now st)) = lastPumpMillis st.
Proof.
  destruct (sensed_state_frame raw st) as (Hl & _).
  rewrite loop_unfold. unfold dose.
  destruct (arbitrated _ _ _) as [b a].
  destruct b; [|destruct a]; cbn; intros H; try discriminate H. exact Hl.
Qed.

Lemma idle_run_keeps_time (inputs : list (Z * Z)) st :
  Forall (fun c => pumpAction (telemetry c) = "off"%string) (cycles inputs st) ->
  lastPumpMillis (run inputs st) = lastPumpMillis st.
Proof.
  revert st. induction inputs as [|i rest IH]; intros st Hoff.
  - reflexivity.
  - cbn [cycles] in Hoff. inversion Hoff as [|? ? Hc Hrest]; subst.
    cbn [run fold_left]. fold (run rest (next (loop (fst i) (snd i) st))).
    rewrite (IH _ Hrest). apply idle_cycle_keeps_time, Hc.
Qed.

(** X7. Successive doses are more than [minGapBetweenBursts] apart.  In any
    run from [setup], a cycle that doses at clock value [now1] does so
    only with the guard holding and records [now1]; the cycles without a
    dose that follow leave that record alone; and the next cycle that
    doses, at clock value [now2], does so only if the unsigned difference
    [now2 - now1] exceeds [minGapBetweenBursts]. *)
Theorem doses_respect_gap
    (earlier : list (Z * Z)) raw1 now1 (between : list (Z * Z)) raw2 now2 :
  let st1 := run earlier (setup (F:=F)) in
  let c1 := loop raw1 now1 st1 in
  let st2 := run between (next c1) in
  let c2 := loop raw2 now2 st2 in
  pumpAction (telemetry c1) = "on"%string ->
  Forall (fun c => pumpAction (telemetry c) = "off"%string)
         (cycles between (next c1)) ->
  pumpAction (telemetry c2) = "on"%string ->
  ulong_sub now1 (lastPumpMillis st1) > minGapBetweenBursts /\
  lastPumpMillis (next c1) = now1 /\
  lastPumpMillis st2 = now1 /\
  ulong_sub now2 now1 > minGapBetweenBursts /\
  lastPumpMillis (next c2) = now2.
Proof.
  intros st1 c1 st2 c2 Hon1 Hoff Hon2.
  assert (Hr1 : reachable st1) by (apply run_reachable, reachable_setup).
  assert (Hr2 : reachable st2)
    by (apply run_reachable, reachable_loop, Hr1).
  destruct (dose_needs_gap raw1 now1 st1 Hr1 Hon1) as [Hg1 Hl1].
  assert (Hl2 : lastPumpMillis st2 = now1).
  { unfold st2. rewrite (idle_run_keeps_time between (next c1) Hoff). exact Hl1. }
  destruct (dose_needs_gap raw2 now2 st2 Hr2 Hon2) as [Hg2 Hl3].
  rewrite Hl2 in Hg2. repeat split; assumption.
Qed.

(** X8. The unsigned subtraction measures the time that has passed even when
    [millis] has rolled over in between: for a true elapsed time below
    2^32 ms, the guard compares exactly that time with the gap. *)
Theorem gap_guard_across_rollover (last elapsed : Z) :
  0 <= last < ulong_modulus ->
  0 <= elapsed < ulong_modulus ->
  ulong_sub ((last + elapsed) mod ulong_modulus) last = elapsed /\
  allowedToRun ((last + elapsed) mod ulong_modulus) last
  = (minGapBetweenBursts <? elapsed).
Proof.
  intros Hl He.
  assert (E : ulong_sub ((last + elapsed) mod ulong_modulus) last = elapsed).
  { unfold ulong_sub. rewrite Zminus_mod_idemp_l.
    replace (last + elapsed - last) with elapsed by lia.
    apply Z.mod_small. exact He. }
  split; [exact E|]. unfold allowedToRun. rewrite E. reflexivity.
Qed.

(** X9. What a cycle started from a reachable state does, in terms of its
    reading alone: it doses base when the guard holds and pH <= 6.45, acid
    when the guard holds and pH >= 7.55, and nothing otherwise.  The exit
    thresholds 6.7 and 7.3 and the arbitration have no part in it. *)
Theorem effective_control_law raw now st :
  thresholds_disjoint (F:=F) ->
  reachable st ->
  pumpType (telemetry (loop raw now st)) =
  if allowedToRun now (lastPumpMillis st)
     && fle (measured_pH raw st) pH_low_threshold then "basic"%string
  else if allowedToRun now (lastPumpMillis st)
          && fle pH_high_threshold (measured_pH raw st) then "acidic"%string
  else "none"%string.
Proof.
  intros Hdis Hr.
  destruct (reachable_flags st Hr) as [Hb Ha].
  destruct (sensed_state_frame raw st) as (Hl & _ & _ & Hb1 & Ha1).
  rewrite loop_unfold. unfold dose, arbitrated.
  rewrite Hl, Hb1, Ha1, Hb, Ha, base_transition_enter, acid_transition_enter.
  destruct (allowedToRun now (lastPumpMillis st)); cbn [andb];
    [|rewrite !andb_false_r; reflexivity].
  rewrite !andb_true_r.
  destruct (fle (measured_pH raw st) pH_low_threshold) eqn:El;
    destruct (fle pH_high_threshold (measured_pH raw st)) eqn:Eh;
    try reflexivity.
  destruct (Hdis _ El Eh).
Qed.

End RunInvariants.

(** ** The pump pins *)

Section PumpPins.

Context {F : Type} {ops : FloatOps F}.

Implicit Types (st : @State F) (now raw : Z) (p : Pins) (es : list Effect).

Lemma pins_after_app es1 es2 p :
  pins_after (es1 ++ es2) p = pins_after es2 (pins_after es1 p).
Proof. unfold pins_after. apply fold_left_app. Qed.

Lemma pin_history_app es1 es2 p :
  pin_history (es1 ++ es2) p
  = pin_history es1 p ++ pin_history es2 (pins_after es1 p).
Proof.
  revert p. induction es1 as [|e es1 IH]; intros p; cbn.
  - reflexivity.
  - rewrite IH. reflexivity.
Qed.

(** What a cycle does to the pins is one of three fixed sequences, and
    the telemetry names the one performed. *)
Lemma actuation_cases raw now st :
  let c := loop raw now st in
  (pumpType (telemetry c) = "basic"%string /\
   actuation c = runBasicPump ++ [Delay pumpBurstMs] ++ stopPumps) \/
  (pumpType (telemetry c) = "acidic"%string /\
   actuation c = runAcidicPump ++ [Delay pumpBurstMs] ++ stopPumps) \/
  (pumpType (telemetry c) = "none"%string /\ actuation c = []).
Proof.
  cbn zeta. rewrite loop_unfold. unfold dose.
  destruct (arbitrated _ _ _) as [b a].
  destruct b; [|destruct a]; cbn; auto.
Qed.

Lemma stopPumps_off p : pumps_off (pins_after stopPumps p).
Proof. repeat split. Qed.

Lemma cycle_pins_safe raw now st p :
  pumps_off p ->
  Forall one_pump_at_most (pin_history (actuation (loop raw now st)) p) /\
  pumps_off (pins_after (actuation (loop raw now st)) p).
Proof.
  intros (H1 & H2 & H3 & H4).
  unfold basic_pump_in1, basic_pump_in2, acidic_pump_in3, acidic_pump_in4 in *.
  destruct (actuation_cases raw now st) as [[_ ->] | [[_ ->] | [_ ->]]].
  - split; [|repeat split].
    cbn [pin_history app runBasicPump stopPumps].
    repeat (apply Forall_cons_2;
            [unfold one_pump_at_most, basic_pump_in1, basic_pump_in2,
               acidic_pump_in3, acidic_pump_in4, perform, digitalWrite;
             cbn; rewrite ?H1, ?H2, ?H3, ?H4; repeat split|]).
    apply Forall_nil_2.
  - split; [|repeat split].
    cbn [pin_history app runAcidicPump stopPumps].
    repeat (apply Forall_cons_2;
            [unfold one_pump_at_most, basic_pump_in1, basic_pump_in2,
               acidic_pump_in3, acidic_pump_in4, perform, digitalWrite;
             cbn; rewrite ?H1, ?H2, ?H3, ?H4; repeat split|]).
    apply Forall_nil_2.
  - split; [constructor|repeat split; assumption].
Qed.

Lemma run_pins_safe (inputs : list (Z * Z)) st p :
  pumps_off p ->
  Forall one_pump_at_most
    (pin_history (concat (map actuation (cycles inputs st))) p) /\
  pumps_off (pins_after (concat (map actuation (cycles inputs st))) p).
Proof.
  revert st p. induction inputs as [|i rest IH]; intros st p Hoff.
  - split; [constructor|exact Hoff].
  - cbn [cycles map concat].
    destruct (cycle_pins_safe (fst i) (snd i) st p Hoff) as [Hh Hp].
    destruct (IH (next (loop (fst i) (snd i) st)) _ Hp) as [Hh' Hp'].
    rewrite pin_history_app, pins_after_app. split.
    + apply Forall_app. split; assumption.
    + exact Hp'.
Qed.

(** X10. Whatever the pin levels at power-on, [setup] leaves the four pump
    pins LOW, and from then on, throughout any run, the reverse pins stay
    LOW and the two forward pins are never HIGH together; after every
    cycle all four are LOW again. *)
Theorem pumps_never_both_on (inputs : list (Z * Z)) (power_on : Pins) :
  let p := pins_after setup_actuation power_on in
  let es := concat (map actuation (cycles inputs (setup (F:=F)))) in
  pumps_off p /\
  Forall one_pump_at_most (pin_history es p) /\
  pumps_off (pins_after es p).
Proof.
  intros p es.
  assert (Hoff : pumps_off p) by (repeat split).
  split; [exact Hoff|]. apply run_pins_safe, Hoff.
Qed.


End PumpPins.

(** ** The filter as a sliding window, for any carrier *)

Section SlidingWindow.

Context {F : Type} {ops : FloatOps F}.

Local Open Scope nat_scope.

Implicit Types (v : F) (vs : list F).

(** Overwriting the oldest slot of a rotated window rotates the window
    advanced by one sample. *)
Lemma rotated_push {A : Type} (w : list A) (v : A) (i : nat) :
  length w = MA_SIZE -> (i < MA_SIZE)%nat ->
  <[i := v]> (drop (MA_SIZE - i) w ++ take (MA_SIZE - i) w)
  = drop (MA_SIZE - (i + 1) mod MA_SIZE) (drop 1 w ++ [v])
    ++ take (MA_SIZE - (i + 1) mod MA_SIZE) (drop 1 w ++ [v]).
Proof.
  intros Hw Hi. destruct w as [|x w1]; [cbn in Hw; unfold MA_SIZE in Hw; lia|].
  cbn [length] in Hw. cbn [drop].
  assert (Hw1 : length w1 = (MA_SIZE - 1)%nat) by lia.
  rewrite insert_app_r_alt by (rewrite length_drop; cbn [length]; lia).
  rewrite length_drop. cbn [length].
  replace (i - (S (length w1) - (MA_SIZE - i)))%nat with 0%nat by lia.
  replace (MA_SIZE - i)%nat with (S (MA_SIZE - i - 1)) by lia.
  cbn [take drop]. cbn [insert list_insert]. rewrite !drop_0.
  destruct (Nat.eq_dec (i + 1) MA_SIZE) as [E | E].
  - replace ((i + 1) mod MA_SIZE)%nat with 0%nat by ring_index.
    replace (MA_SIZE - i - 1)%nat with 0%nat by lia.
    rewrite drop_0, take_0, Nat.sub_0_r.
    rewrite drop_ge, take_ge by (rewrite length_app; cbn [length]; lia).
    reflexivity.
  - replace ((i + 1) mod MA_SIZE)%nat with (i + 1)%nat by ring_index.
    replace (MA_SIZE - (i + 1))%nat with (MA_SIZE - i - 1)%nat by lia.
    rewrite drop_app_le, take_app_le by lia.
    rewrite <- app_assoc. reflexivity.
Qed.

Lemma last_samples_length {A : Type} (l : list A) :
  length (last_samples l) = (length l `min` MA_SIZE)%nat.
Proof. unfold last_samples. rewrite length_drop. lia. Qed.

Lemma last_samples_snoc {A : Type} (l : list A) (a : A) :
  (MA_SIZE <= length l)%nat ->
  last_samples (l ++ [a]) = drop 1 (last_samples l) ++ [a].
Proof.
  intros Hl. unfold last_samples. rewrite length_app. cbn [length].
  rewrite drop_app_le by (unfold MA_SIZE in *; lia).
  rewrite drop_drop. f_equal. f_equal. lia.
Qed.

(** Once the buffer is full it holds the last [MA_SIZE] samples, the
    oldest of them in the slot that will be written next. *)
Lemma feed_setup_rotated vs :
  (MA_SIZE <= length vs)%nat ->
  maBuffer (feed vs setup)
  = drop (MA_SIZE - length vs mod MA_SIZE) (last_samples vs)
    ++ take (MA_SIZE - length vs mod MA_SIZE) (last_samples vs).
Proof.
  induction vs as [|v vs IH] using rev_ind; intros Hlen.
  - cbn in Hlen. unfold MA_SIZE in Hlen. lia.
  - rewrite length_app in *. cbn [length] in *.
    destruct (Nat.eq_dec (length vs + 1) MA_SIZE) as [E | E].
    + destruct (feed_setup (vs ++ [v])) as (Hb & _).
      { rewrite length_app. cbn [length]. lia. }
      rewrite Hb, length_app. cbn [length]. rewrite E, Nat.sub_diag.
      cbn [replicate]. rewrite app_nil_r.
      replace (MA_SIZE mod MA_SIZE)%nat with 0%nat by ring_index.
      unfold last_samples. rewrite length_app. cbn [length].
      rewrite E, Nat.sub_diag, Nat.sub_0_r, drop_0.
      rewrite drop_ge, take_ge by (rewrite length_app; cbn [length]; lia).
      reflexivity.
    + rewrite feed_snoc. unfold applyMA. cbn [fst maBuffer].
      destruct (feed_shape vs) as (_ & Hi & _).
      rewrite Hi, IH by lia.
      rewrite rotated_push.
      * rewrite <- last_samples_snoc by lia.
        replace ((length vs mod MA_SIZE + 1) mod MA_SIZE)%nat
          with ((length vs + 1) mod MA_SIZE)%nat by ring_index.
        reflexivity.
      * rewrite last_samples_length. lia.
      * apply Nat.mod_upper_bound. unfold MA_SIZE. lia.
Qed.

End SlidingWindow.

(** ** Sensing, over exact rationals *)

Local Open Scope Q_scope.

Section ExactSensing.

Implicit Types (st : @State Q) (raw now : Z).

Lemma Qsum_app (l1 l2 : list Q) : Qsum (l1 ++ l2) == Qsum l1 + Qsum l2.
Proof.
  induction l1 as [|a l1 IH].
  - change (Qsum l2 == 0 + Qsum l2). ring.
  - change (a + Qsum (l1 ++ l2) == a + Qsum l1 + Qsum l2). rewrite IH. ring.
Qed.

Lemma Qsum_rotated (k : nat) (l : list Q) :
  Qsum (drop k l ++ take k l) == Qsum l.
Proof.
  rewrite Qsum_app, Qplus_comm, <- Qsum_app, take_drop. reflexivity.
Qed.

(** Whatever the number of samples pushed since [setup], a push returns
    the arithmetic mean of the last [MA_SIZE] samples, the new one
    included, or of all of them while there are fewer. *)
Lemma feed_sliding_mean (vs : list Q) (v : Q) :
  snd (applyMA v (feed vs (setup (F:=Q)))) == Qmean (last_samples (vs ++ [v])).
Proof.
  destruct (Nat.le_gt_cases (length (vs ++ [v])) MA_SIZE) as [Hle | Hgt].
  - rewrite applyMA_pushed_prefix by exact Hle. exact_ops.
    change (Qred 0.0) with 0. unfold last_samples.
    replace (length (vs ++ [v]) - MA_SIZE)%nat with 0%nat by lia.
    rewrite drop_0. unfold Qmean. rewrite fold_left_Qplus. field.
    apply inject_nat_nonzero. rewrite length_app. cbn. lia.
  - rewrite applyMA_output, <- feed_snoc.
    destruct (feed_shape (vs ++ [v])) as (_ & _ & Hc).
    rewrite Hc, feed_setup_rotated by lia.
    replace (length (vs ++ [v]) `min` MA_SIZE)%nat with MA_SIZE by lia.
    rewrite take_ge
      by (rewrite length_app, length_drop, length_take, last_samples_length; lia).
    exact_ops. change (Qred 0.0) with 0.
    rewrite fold_left_Qplus, Qsum_rotated. unfold Qmean.
    rewrite last_samples_length.
    replace (length (vs ++ [v]) `min` MA_SIZE)%nat with MA_SIZE by lia.
    field. apply inject_nat_nonzero. unfold MA_SIZE. lia.
Qed.

(** The same for the sketch as it runs. *)
Lemma run_sliding_mean (inputs : list (Z * Z)) raw :
  filtered_voltage raw (run inputs (setup (F:=Q)))
  == Qmean (last_samples (map readVoltage (map fst inputs ++ [raw]))).
Proof.
  change (filtered_voltage raw (run inputs (setup (F:=Q))))
    with (snd (applyMA (readVoltage raw) (run inputs (setup (F:=Q))))).
  destruct (applyMA_filter_of (readVoltage raw) (run inputs (setup (F:=Q)))
              (feed (map (fun i => readVoltage (fst i)) inputs) (setup (F:=Q)))
              (run_filter_of inputs (setup (F:=Q)) setup eq_refl)) as [_ ->].
  rewrite feed_sliding_mean, map_app, map_map. reflexivity.
Qed.

(** X2. The filter is a sliding-window mean.  Whatever the number of samples
    pushed since [setup], a push returns the arithmetic mean of the last
    [MA_SIZE] samples, the new one included, or of all of them while there
    are fewer; so the voltage a cycle reports is the mean of the voltages
    read in the last [MA_SIZE] cycles, this one included. *)
Theorem filter_is_sliding_mean (vs : list Q) (v : Q) (inputs : list (Z * Z)) raw :
  snd (applyMA v (feed vs (setup (F:=Q)))) == Qmean (last_samples (vs ++ [v])) /\
  filtered_voltage raw (run inputs (setup (F:=Q)))
  == Qmean (last_samples (map readVoltage (map fst inputs ++ [raw]))).
Proof. split; [apply feed_sliding_mean | apply run_sliding_mean]. Qed.

Lemma Qsum_bounds (l : list Q) (lo hi : Q) :
  Forall (fun a => lo <= a <= hi) l ->
  inject_Z (Z.of_nat (length l)) * lo <= Qsum l
  /\ Qsum l <= inject_Z (Z.of_nat (length l)) * hi.
Proof.
  induction 1 as [|a l [Ha1 Ha2] _ [IH1 IH2]].
  - change (0 * lo <= 0 /\ 0 <= 0 * hi). split; lra.
  - cbn [length]. rewrite Nat2Z.inj_succ. unfold Z.succ. rewrite inject_Z_plus.
    change (Qsum (a :: l)) with (a + Qsum l). change (inject_Z 1) with 1.
    split; lra.
Qed.

(** A mean lies between the bounds of the values averaged. *)
Lemma Qmean_bounds (l : list Q) (lo hi : Q) :
  (0 < length l)%nat ->
  Forall (fun a => lo <= a <= hi) l ->
  lo <= Qmean l <= hi.
Proof.
  intros Hlen Hall. destruct (Qsum_bounds l lo hi Hall) as [H1 H2].
  assert (Hn : 0 < inject_Z (Z.of_nat (length l))).
  { change 0 with (inject_Z 0). rewrite <- Zlt_Qlt. lia. }
  unfold Qmean. split.
  - apply Qle_shift_div_l; [exact Hn|]. rewrite Qmult_comm. exact H1.
  - apply Qle_shift_div_r; [exact Hn|]. rewrite Qmult_comm. exact H2.
Qed.

Lemma readVoltage_Q raw : readVoltage raw == inject_Z raw * (5 # 1023).
Proof.
  unfold readVoltage. exact_ops.
  assert (E : Qred 5.0 / Qred 1023.0 == 5 # 1023) by reflexivity.
  rewrite E. reflexivity.
Qed.

Lemma readVoltage_bounds (raw : Z) :
  (0 <= raw <= 1023)%Z -> 0 <= readVoltage raw <= 5.
Proof.
  intros [H0 H1]. rewrite readVoltage_Q.
  rewrite Zle_Qle in H0, H1. change (inject_Z 0) with 0 in H0.
  change (inject_Z 1023) with 1023 in H1. split; lra.
Qed.

(** X3. [readVoltage] maps the 10-bit range of [analogRead] onto [0 V, 5 V],
    with 1023 read as exactly 5 V, and preserves the order of readings. *)
Theorem readVoltage_range (raw raw' : Z) :
  (0 <= raw <= 1023)%Z ->
  (raw <= raw')%Z ->
  0 <= readVoltage raw <= 5 /\
  readVoltage raw <= readVoltage raw' /\
  readVoltage 1023 == 5.
Proof.
  intros [H0 H1] Hle. rewrite !readVoltage_Q.
  rewrite Zle_Qle in H0, H1, Hle. change (inject_Z 0) with 0 in H0.
  change (inject_Z 1023) with 1023 in H1.
  repeat split; lra.
Qed.

Lemma last_samples_Forall {A : Type} (P : A -> Prop) (l : list A) :
  Forall P l -> Forall P (last_samples l).
Proof. unfold last_samples. apply Forall_drop. Qed.

(** X4. With readings in the 10-bit range, the filtered voltage of every
    cycle lies in [0 V, 5 V]. *)
Theorem filtered_voltage_in_range (inputs : list (Z * Z)) raw :
  Forall (fun i => (0 <= fst i <= 1023)%Z) inputs ->
  (0 <= raw <= 1023)%Z ->
  0 <= filtered_voltage raw (run inputs (setup (F:=Q))) <= 5.
Proof.
  intros Hin Hraw. rewrite run_sliding_mean.
  apply Qmean_bounds.
  - rewrite last_samples_length, length_map, length_app. cbn [length].
    unfold MA_SIZE. lia.
  - apply last_samples_Forall, Forall_map, Forall_app. split.
    + apply Forall_map. eapply Forall_impl; [exact Hin|].
      intros i Hi. cbn. apply readVoltage_bounds, Hi.
    + constructor; [|constructor]. apply readVoltage_bounds, Hraw.
Qed.

End ExactSensing.

(** ** Polarity of the reading, over exact rationals *)

Section ExactPolarity.

Implicit Types (st : @State Q) (raw now : Z).

Lemma Qsum_take_insert_le (l : list Q) (i c : nat) (v1 v2 : Q) :
  v1 <= v2 ->
  Qsum (take c (<[i := v1]> l)) <= Qsum (take c (<[i := v2]> l)).
Proof.
  intros Hv. revert i c. induction l as [|a l IH]; intros i c.
  - apply Qle_refl.
  - destruct i as [|i], c as [|c]; cbn [insert list_insert take];
      try apply Qle_refl.
    + change (v1 + Qsum (take c l) <= v2 + Qsum (take c l)). lra.
    + change (a + Qsum (take c (<[i := v1]> l))
              <= a + Qsum (take c (<[i := v2]> l))).
      specialize (IH i c). lra.
Qed.

(** The filter output does not decrease when the sample pushed
    increases. *)
Lemma applyMA_monotone st (v1 v2 : Q) :
  v1 <= v2 -> snd (applyMA v1 st) <= snd (applyMA v2 st).
Proof.
  intros Hv. unfold applyMA. cbn [snd]. exact_ops.
  set (cnt := if (maCount st <? MA_SIZE)%nat then S (maCount st) else maCount st).
  assert (Hc : 0 < inject_Z (Z.of_nat cnt)).
  { change 0 with (inject_Z 0). rewrite <- Zlt_Qlt. subst cnt.
    destruct (Nat.ltb_spec (maCount st) MA_SIZE); unfold MA_SIZE in *; lia. }
  rewrite !fold_left_Qplus.
  apply Qmult_le_compat_r; [|apply Qlt_le_weak, Qinv_lt_0_compat, Hc].
  pose proof (Qsum_take_insert_le (maBuffer st) (maIndex st) cnt v1 v2 Hv).
  lra.
Qed.

(** With a slope that is not positive, the clamped pH does not increase
    with the voltage. *)
Lemma compute_pH_antitone (s i v1 v2 : Q) :
  s <= 0 -> v1 <= v2 -> compute_pH s i v2 <= compute_pH s i v1.
Proof.
  intros Hs Hv.
  destruct (compute_pH_Q s i v1) as [-> _].
  destruct (compute_pH_Q s i v2) as [-> _].
  apply Q.min_le_compat_l, Q.max_le_compat_l. nra.
Qed.

Lemma computed_slope_negative : fst (computeCalibration (F:=Q)) < 0.
Proof. vm_compute. reflexivity. Qed.

(** X12. The calibration of the sketch has the probe's polarity throughout a
    run: in any reachable state, a higher reading of [analogRead] never
    yields a higher pH for the cycle. *)
Theorem higher_reading_never_raises_pH raw1 raw2 st :
  reachable st ->
  (raw1 <= raw2)%Z ->
  measured_pH raw2 st <= measured_pH raw1 st.
Proof.
  intros Hr Hraw.
  change (measured_pH raw2 st)
    with (compute_pH (slope st) (intercept st) (snd (applyMA (readVoltage raw2) st))).
  change (measured_pH raw1 st)
    with (compute_pH (slope st) (intercept st) (snd (applyMA (readVoltage raw1) st))).
  apply compute_pH_antitone.
  - pose proof (reachable_calibration st Hr) as E.
    pose proof computed_slope_negative as Hneg.
    rewrite <- E in Hneg. cbn [fst] in Hneg. apply Qlt_le_weak, Hneg.
  - apply applyMA_monotone. rewrite !readVoltage_Q.
    rewrite Zle_Qle in Hraw. lra.
Qed.

End ExactPolarity.

(** ** The calibration as a least-squares fit, over exact rationals *)

Section ExactLeastSquares.



End ExactLeastSquares.

(** ** Sensing in binary32 *)

Local Open Scope Z_scope.

Section Binary32Sensing.

(** Comparison of two floats, read in the other direction. *)
Lemma SFcompare_antisym (x y : spec_float) :
  SFcompare y x = option_map CompOpp (SFcompare x y).
Proof.
  destruct x as [sx | sx | | sx mx ex], y as [sy | sy | | sy my ey];
    try destruct sx; try destruct sy; try reflexivity;
    cbn [SFcompare option_map];
    rewrite (Z.compare_antisym ey ex);
    change (PosDef.Pos.compare_cont Eq) with Pos.compare;
    rewrite (Pos.compare_antisym my mx);
    destruct (ey ?= ex); cbn [CompOpp]; try reflexivity;
    destruct (my ?= mx)%positive; reflexivity.
Qed.

(** Two floats that are not NaN are ordered one way or the other. *)
Lemma SFltb_false_SFleb (x y : spec_float) :
  x <> S754_nan -> y <> S754_nan -> SFltb x y = false -> SFleb y x = true.
Proof.
  intros Hx Hy. unfold SFltb, SFleb. rewrite (SFcompare_antisym x y).
  destruct x as [sx | sx | | sx mx ex], y as [sy | sy | | sy my ey];
    try congruence;
    destruct (SFcompare _ _) as [[ | | ]|] eqn:E; cbn; try congruence;
    try discriminate E;
    repeat match type of E with context [match ?b with _ => _ end] =>
             destruct b end; discriminate E.
Qed.

(** X14. In binary32 the clamp does its work for every value that is not NaN,
    the infinities included: the pH lies between 0 and 14. *)
Theorem binary32_clamp_range (s i v : spec_float) :
  fadd (fmul s v) i <> S754_nan ->
  fle (of_int 0) (compute_pH s i v) = true /\
  fle (compute_pH s i v) (of_int 14) = true.
Proof.
  intros Hx. unfold compute_pH. set (x := fadd (fmul s v) i) in *.
  cbn [fle flt of_int binary32_ops].
  assert (H0 : of_Z 0 <> S754_nan) by discriminate.
  assert (H14 : of_Z 14 <> S754_nan) by discriminate.
  assert (Hp : (if SFltb x (of_Z 0) then of_Z 0 else x) <> S754_nan
               /\ SFleb (of_Z 0) (if SFltb x (of_Z 0) then of_Z 0 else x) = true).
  { destruct (SFltb x (of_Z 0)) eqn:E.
    - split; [exact H0 | reflexivity].
    - split; [exact Hx | apply SFltb_false_SFleb; assumption]. }
  destruct Hp as [Hp Hle]. set (p := if SFltb x (of_Z 0) then of_Z 0 else x) in *.
  destruct (SFltb (of_Z 14) p) eqn:E.
  - split; reflexivity.
  - split; [exact Hle | apply SFltb_false_SFleb; assumption].
Qed.

(** A NaN passes through the two tests unchanged. *)
Lemma binary32_clamp_nan (s i v : spec_float) :
  fadd (fmul s v) i = S754_nan -> compute_pH s i v = S754_nan.
Proof. intros E. unfold compute_pH. rewrite E. reflexivity. Qed.

Lemma ten_bit_reading (raw : Z) :
  0 <= raw <= 1023 -> In raw (map Z.of_nat (seq 0 1024)).
Proof.
  intros H. apply in_map_iff. exists (Z.to_nat raw). split; [lia|].
  apply in_seq. lia.
Qed.

(** X15. In binary32 too, every reading of the 10-bit range is converted to a
    voltage between 0 and 5.0f, a larger reading to a strictly larger
    voltage, and 1023 to exactly 5.0f. *)
Theorem binary32_readVoltage_range (raw : Z) :
  0 <= raw <= 1023 ->
  SFleb (of_int 0) (readVoltage raw) = true /\
  SFleb (readVoltage raw) (lit 5.0%Q) = true /\
  (raw < 1023 -> SFltb (readVoltage raw) (readVoltage (raw + 1)) = true) /\
  readVoltage (F:=spec_float) 1023 = lit 5.0%Q.
Proof.
  intros H. pose proof (ten_bit_reading raw H) as Hin.
  assert (Hall : forallb
            (fun r => SFleb (of_int 0) (readVoltage r)
                      && SFleb (readVoltage r) (lit 5.0%Q)
                      && ((1023 <=? r) || SFltb (readVoltage r) (readVoltage (r + 1))))
            (map Z.of_nat (seq 0 1024)) = true)
    by (vm_compute; reflexivity).
  rewrite forallb_forall in Hall. specialize (Hall raw Hin).
  apply andb_prop in Hall. destruct Hall as [Hall Hmono].
  apply andb_prop in Hall. destruct Hall as [Hlo Hhi].
  split; [exact Hlo|]. split; [exact Hhi|]. split.
  - intros Hlt. apply orb_prop in Hmono. destruct Hmono as [Hge | Hm]; [|exact Hm].
    apply Z.leb_le in Hge. lia.
  - vm_compute. reflexivity.
Qed.

End Binary32Sensing.

(** ** The further theorems with hypotheses, at concrete inputs *)

Lemma calibration_is_fixed_witness :
  let st := next (loop (F:=Q) 614 20000 setup) in
  reachable st /\ (slope st, intercept st) = computeCalibration.
Proof.
  intros st.
  assert (Hr : reachable st) by (apply reachable_loop, reachable_setup).
  split; [exact Hr|]. exact (proj1 (calibration_is_fixed st 549 Hr)).
Defined.

Lemma pumpRunning_never_set_witness :
  let st := next (loop (F:=Q) 614 20000 setup) in
  reachable st /\ pumpRunning st = false.
Proof.
  intros st.
  assert (Hr : reachable st) by (apply reachable_loop, reachable_setup).
  split; [exact Hr|]. exact (pumpRunning_never_set st Hr).
Defined.

Lemma doses_respect_gap_witness :
  (pumpAction (telemetry (loop (F:=Q) 614 20000 (run [] setup))) = "on"%string /\
   Forall (fun c : @Cycle Q => pumpAction (telemetry c) = "off"%string)
          (cycles [(549, 22000)] (next (loop (F:=Q) 614 20000 (run [] setup)))) /\
   pumpAction
     (telemetry
        (loop (F:=Q) 700 31000
           (run [(549, 22000)] (next (loop (F:=Q) 614 20000 (run [] setup))))))
   = "on"%string) /\
  ulong_sub 31000 20000 > minGapBetweenBursts.
Proof.
  assert (H1 : pumpAction (telemetry (loop (F:=Q) 614 20000 (run [] setup)))
               = "on"%string) by (vm_compute; reflexivity).
  assert (H2 : Forall (fun c : @Cycle Q => pumpAction (telemetry c) = "off"%string)
                 (cycles [(549, 22000)] (next (loop (F:=Q) 614 20000 (run [] setup))))).
  { constructor; [vm_compute; reflexivity | constructor]. }
  assert (H3 : pumpAction
                 (telemetry
                    (loop (F:=Q) 700 31000
                       (run [(549, 22000)]
                          (next (loop (F:=Q) 614 20000 (run [] setup))))))
               = "on"%string) by (vm_compute; reflexivity).
  split; [split; [exact H1 | split; [exact H2 | exact H3]]|].
  exact (proj1 (proj2 (proj2 (proj2
           (doses_respect_gap (F:=Q) [] 614 20000 [(549, 22000)] 700 31000
              H1 H2 H3))))).
Defined.

Lemma gap_guard_across_rollover_witness :
  (0 <= 4294962296 < ulong_modulus /\ 0 <= 12000 < ulong_modulus) /\
  ulong_sub ((4294962296 + 12000) mod ulong_modulus) 4294962296 = 12000 /\
  allowedToRun ((4294962296 + 12000) mod ulong_modulus) 4294962296
  = (minGapBetweenBursts <? 12000).
Proof.
  assert (Hl : 0 <= 4294962296 < ulong_modulus) by (unfold ulong_modulus; lia).
  assert (He : 0 <= 12000 < ulong_modulus) by (unfold ulong_modulus; lia).
  split; [split; assumption|].
  exact (gap_guard_across_rollover 4294962296 12000 Hl He).
Defined.

Lemma effective_control_law_witness :
  (thresholds_disjoint (F:=Q) /\ reachable (setup (F:=Q))) /\
  pumpType (telemetry (loop (F:=Q) 614 20000 setup)) =
  if allowedToRun 20000 (lastPumpMillis (setup (F:=Q)))
     && fle (measured_pH (F:=Q) 614 setup) pH_low_threshold then "basic"%string
  else if allowedToRun 20000 (lastPumpMillis (setup (F:=Q)))
          && fle pH_high_threshold (measured_pH (F:=Q) 614 setup)
       then "acidic"%string
  else "none"%string.
Proof.
  split; [split; [exact thresholds_disjoint_Q | apply reachable_setup]|].
  exact (effective_control_law (F:=Q) 614 20000 setup
           thresholds_disjoint_Q reachable_setup).
Defined.

Lemma readVoltage_range_witness :
  (0 <= 512 <= 1023 /\ 512 <= 600) /\
  (readVoltage (F:=Q) 512%Z <= readVoltage (F:=Q) 600%Z)%Q.
Proof.
  assert (H : 0 <= 512 <= 1023) by lia.
  assert (Hle : 512 <= 600) by lia.
  split; [split; assumption|].
  exact (proj1 (proj2 (readVoltage_range 512 600 H Hle))).
Defined.

Lemma filtered_voltage_in_range_witness :
  (Forall (fun i => 0 <= fst i <= 1023) [(614, 1000); (1023, 2000)] /\
   0 <= 0 <= 1023) /\
  (0 <= filtered_voltage 0%Z
          (run [(614%Z, 1000%Z); (1023%Z, 2000%Z)] (setup (F:=Q))) <= 5)%Q.
Proof.
  assert (Hin : Forall (fun i => 0 <= fst i <= 1023) [(614, 1000); (1023, 2000)])
    by (repeat constructor; cbn; lia).
  assert (Hraw : 0 <= 0 <= 1023) by lia.
  split; [split; assumption|].
  exact (filtered_voltage_in_range _ 0 Hin Hraw).
Defined.

Lemma higher_reading_never_raises_pH_witness :
  (reachable (setup (F:=Q)) /\ 500 <= 600) /\
  (measured_pH (F:=Q) 600%Z setup <= measured_pH (F:=Q) 500%Z setup)%Q.
Proof.
  assert (Hle : 500 <= 600) by lia.
  split; [split; [apply reachable_setup | exact Hle]|].
  exact (higher_reading_never_raises_pH 500 600 setup reachable_setup Hle).
Defined.


Lemma binary32_clamp_range_witness :
  fadd (fmul (lit (-1.5)%Q) (lit 3.2%Q)) (lit 11%Q) <> S754_nan /\
  fle (of_int 0) (compute_pH (F:=spec_float) (lit (-1.5)%Q) (lit 11%Q) (lit 3.2%Q))
  = true.
Proof.
  assert (H : fadd (fmul (lit (-1.5)%Q) (lit 3.2%Q)) (lit 11%Q) <> S754_nan)
    by (vm_compute; discriminate).
  split; [exact H|].
  exact (proj1 (binary32_clamp_range _ _ _ H)).
Defined.

Lemma binary32_readVoltage_range_witness :
  0 <= 512 <= 1023 /\
  SFleb (readVoltage (F:=spec_float) 512) (lit 5.0%Q) = true.
Proof.
  assert (H : 0 <= 512 <= 1023) by lia.
  split; [exact H|].
  exact (proj1 (proj2 (binary32_readVoltage_range 512 H))).
Defined.

(** ** The calibration guard and the filter, in both arithmetics *)

Section BothArithmetics.







(** For every voltage [readVoltage] can produce, [MA_SIZE] equal samples
    average in binary32 to within two units in the last place of the
    sample. *)
Lemma binary32_constant_mean_close (raw : Z) :
  0 <= raw <= 1023 ->
  within_ulps 2 (readVoltage raw)
    (fdiv (fold_left fadd (replicate MA_SIZE (readVoltage raw)) (lit 0.0%Q))
          (of_int (Z.of_nat MA_SIZE))) = true.
Proof.
  intros H. pose proof (ten_bit_reading raw H) as Hin.
  assert (Hall : forallb
            (fun r => within_ulps 2 (readVoltage r)
               (fdiv (fold_left fadd (replicate MA_SIZE (readVoltage r)) (lit 0.0%Q))
                     (of_int (Z.of_nat MA_SIZE))))
            (map Z.of_nat (seq 0 1024)) = true)
    by (vm_compute; reflexivity).
  rewrite forallb_forall in Hall. exact (Hall raw Hin).
Qed.

(** C6, as the sketch behaves. From the empty filter of [setup], a push
    that brings the number of samples to k < MA_SIZE returns the sum of
    exactly the k samples pushed, accumulated from 0.0 in the order pushed,
    divided by k; once MA_SIZE or more samples of one value v have been
    pushed it returns the sum of MA_SIZE copies of v divided by MA_SIZE.
    In exact arithmetic these are the arithmetic mean of the k samples and
    v itself; in binary32, for every voltage [readVoltage] can produce,
    the latter is within two units in the last place of v. *)
Theorem filter_returns_mean_of_pushed :
  (forall (F : Type) (ops : FloatOps F) (vs : list F) (v : F),
      (length (vs ++ [v]) < MA_SIZE)%nat ->
      snd (applyMA v (feed vs setup))
      = fdiv (fold_left fadd (vs ++ [v]) (lit 0.0%Q))
             (of_int (Z.of_nat (length (vs ++ [v]))))) /\
  (forall (F : Type) (ops : FloatOps F) (v : F) (m : nat),
      (MA_SIZE <= S m)%nat ->
      snd (applyMA v (feed (replicate m v) setup))
      = fdiv (fold_left fadd (replicate MA_SIZE v) (lit 0.0%Q))
             (of_int (Z.of_nat MA_SIZE))) /\
  (forall (vs : list Q) (v : Q),
      (length (vs ++ [v]) < MA_SIZE)%nat ->
      (snd (applyMA v (feed vs setup)) == Qmean (vs ++ [v]))%Q) /\
  (forall (v : Q) (m : nat),
      (MA_SIZE <= S m)%nat ->
      (snd (applyMA v (feed (replicate m v) setup)) == v)%Q) /\
  (forall (raw : Z) (m : nat),
      0 <= raw <= 1023 ->
      (MA_SIZE <= S m)%nat ->
      within_ulps 2 (readVoltage raw)
        (snd (applyMA (readVoltage raw)
                (feed (replicate m (readVoltage raw)) setup))) = true).
Proof.
  split; [|split; [|split; [|split]]].
  - intros F ops vs v Hlen. apply applyMA_pushed_prefix. lia.
  - intros F ops v m Hm. apply applyMA_constant_full; [apply setup_filter_wf | exact Hm].
  - intros vs v Hlen. apply applyMA_prefix_Qmean. lia.
  - intros v m Hm. apply filter_converges; [apply setup_filter_wf | exact Hm].
  - intros raw m Hraw Hm.
    rewrite (applyMA_constant_full (readVoltage raw) m setup (setup_filter_wf) Hm).
    apply binary32_constant_mean_close, Hraw.
Qed.

(** C6, as stated, fails. In binary32 the voltage of reading 614 is
    12587012 * 2^-22; after twelve pushes of it the filter returns
    12587011 * 2^-22, not the sample.  Three pushes of the voltage of
    reading 11 into the empty filter return a value other than their
    common value, which is their arithmetic mean. *)
Lemma binary32_constant_sample_not_returned :
  (let v : spec_float := readVoltage 614 in
   v = S754_finite false 12587012 (-22) /\
   snd (applyMA v (feed (replicate 11 v) setup))
   = S754_finite false 12587011 (-22)) /\
  (let w : spec_float := readVoltage 11 in
   w = S754_finite false 14432014 (-28) /\
   snd (applyMA w (feed [w; w] setup)) = S754_finite false 14432013 (-28)).
Proof. split; split; vm_compute; reflexivity. Qed.

End BothArithmetics.


Lemma filter_returns_mean_of_pushed_witness :
  ((length ([1; 2] ++ [6])%Q < MA_SIZE)%nat /\
   (snd (applyMA (F:=Q) 6 (feed [1; 2]%Q setup)) == 3)%Q) /\
  ((MA_SIZE <= 12)%nat /\
   (snd (applyMA (F:=Q) 0.1 (feed (replicate 11 0.1%Q) setup)) == 0.1)%Q) /\
  ((0 <= 614 <= 1023 /\ (MA_SIZE <= 12)%nat) /\
   within_ulps 2 (readVoltage 614)
     (snd (applyMA (readVoltage 614)
             (feed (replicate 11 (readVoltage 614)) setup))) = true).
Proof.
  destruct filter_returns_mean_of_pushed as (_ & _ & Hmean & Hconst & Hulp).
  assert (Hk : (length ([1; 2] ++ [6])%Q < MA_SIZE)%nat) by (vm_compute; lia).
  assert (Hn : (MA_SIZE <= 12)%nat) by (vm_compute; lia).
  assert (Hr : 0 <= 614 <= 1023) by lia.
  split; [split; [exact Hk|]|split; [split; [exact Hn|]|split; [split; assumption|]]].
  - rewrite (Hmean [1; 2]%Q 6%Q Hk). vm_compute. reflexivity.
  - exact (Hconst 0.1%Q 11%nat Hn).
  - exact (Hulp 614 11%nat Hr Hn).
Defined.
